(** * Gold price forecast (Linear.py): the regression engine

    A shallow embedding of the statistical part of [Linear.py]: loading and
    cleaning the price table, the conversion to IDR per gram, the integer
    time axis, the manual OLS fit, the residual noise, the forward
    projection and the summary figures.

    Numbers.  The script computes on numpy [float64] values.  They are
    modelled by [float64] below: an exact real number or one of the IEEE
    special values [+inf], [-inf], [nan].  Rounding, overflow and the sign
    of zero are abstracted away (a zero divisor is taken as [+0]); what is
    kept is that numpy arithmetic never raises: a division by zero yields
    [inf] or [nan].  Integers ([int64] day counts, the slider value) are [Z].

    Time.  A [datetime64[ns]] timestamp is the integer number of
    nanoseconds since the epoch; [NaT] is [None].

    Exceptions.  Python exceptions are the [Raise] results of the small
    error monad [result]. *)

From Stdlib Require Import String.
From Stdlib Require Import Reals Lra Psatz List ZArith Lia Bool Sorted.
Import ListNotations.

Set Implicit Arguments.

(* ================================================================= *)
(** ** Python exceptions *)

(** [DateRangeError] stands for the exception with which [pd.date_range]
    rejects a negative count; its class is the library's (an
    [OutOfBoundsDatetime], which is a [ValueError], or an [OverflowError],
    with the installed pandas and numpy). *)
Inductive exn : Type :=
| IndexError
| ValueError
| ZeroDivisionError
| DateRangeError.

Inductive result (A : Type) : Type :=
| Ok (a : A)
| Raise (e : exn).

Arguments Ok {A} a.
Arguments Raise {A} e.

Definition bind {A B : Type} (m : result A) (k : A -> result B) : result B :=
  match m with
  | Ok a => k a
  | Raise e => Raise e
  end.

Notation "x <- m ;; k" := (bind m (fun x => k))
  (at level 61, m at next level, right associativity).

(* ================================================================= *)
(** ** float64 values *)

Inductive float64 : Type :=
| Fin (r : R)
| PInf
| NInf
| NaN.

Definition Rsgn (r : R) : comparison :=
  match total_order_T r 0 with
  | inleft (left _) => Lt
  | inleft (right _) => Eq
  | inright _ => Gt
  end.

Definition mul_sign (a b : comparison) : comparison :=
  match a, b with
  | Eq, _ | _, Eq => Eq
  | Gt, Gt | Lt, Lt => Gt
  | _, _ => Lt
  end.

(** An infinity of the given sign; the sign [Eq] stands for the invalid
    cases [0 * inf] and [0 / 0]. *)
Definition inf_of_sign (c : comparison) : float64 :=
  match c with
  | Gt => PInf
  | Lt => NInf
  | Eq => NaN
  end.

Definition fsign (a : float64) : comparison :=
  match a with
  | Fin r => Rsgn r
  | PInf => Gt
  | NInf => Lt
  | NaN => Eq
  end.

Definition of_int (z : Z) : float64 := Fin (IZR z).

Definition isnan (a : float64) : bool :=
  match a with
  | NaN => true
  | _ => false
  end.

Definition isfinite (a : float64) : bool :=
  match a with
  | Fin _ => true
  | _ => false
  end.

Definition fneg (a : float64) : float64 :=
  match a with
  | Fin r => Fin (- r)
  | PInf => NInf
  | NInf => PInf
  | NaN => NaN
  end.

Definition fadd (a b : float64) : float64 :=
  match a, b with
  | NaN, _ | _, NaN => NaN
  | Fin x, Fin y => Fin (x + y)
  | PInf, NInf | NInf, PInf => NaN
  | PInf, _ | _, PInf => PInf
  | NInf, _ | _, NInf => NInf
  end.

Definition fsub (a b : float64) : float64 :=
  match a, b with
  | NaN, _ | _, NaN => NaN
  | Fin x, Fin y => Fin (x - y)
  | PInf, PInf | NInf, NInf => NaN
  | PInf, _ | _, NInf => PInf
  | NInf, _ | _, PInf => NInf
  end.

Definition fmul (a b : float64) : float64 :=
  match a, b with
  | NaN, _ | _, NaN => NaN
  | Fin x, Fin y => Fin (x * y)
  | _, _ => inf_of_sign (mul_sign (fsign a) (fsign b))
  end.

Definition fdiv (a b : float64) : float64 :=
  match a, b with
  | NaN, _ | _, NaN => NaN
  | Fin x, Fin y =>
      if Req_dec_T y 0 then inf_of_sign (Rsgn x) else Fin (x / y)
  | Fin _, _ => Fin 0
  | _, Fin y =>
      match Rsgn y with
      | Lt => fneg a
      | _ => a
      end
  | _, _ => NaN
  end.

(** [a ** 2] *)
Definition fpow2 (a : float64) : float64 := fmul a a.

Definition fsqrt (a : float64) : float64 :=
  match a with
  | Fin r => if Rlt_dec r 0 then NaN else Fin (sqrt r)
  | PInf => PInf
  | _ => NaN
  end.

(** [a > b]; every comparison with [nan] is [False]. *)
Definition fgt (a b : float64) : bool :=
  match a, b with
  | NaN, _ | _, NaN => false
  | Fin x, Fin y => if Rlt_dec y x then true else false
  | PInf, PInf => false
  | PInf, _ => true
  | Fin _, NInf => true
  | _, _ => false
  end.

(* ================================================================= *)
(** ** numpy and pandas operations used by the script *)

(** [np.sum] *)
Definition np_sum (a : list float64) : float64 :=
  fold_right fadd (Fin 0) a.

(** [np.mean]: the sum divided by the number of elements. *)
Definition np_mean (a : list float64) : float64 :=
  fdiv (np_sum a) (of_int (Z.of_nat (length a))).

(** Element-wise binary operation on two arrays of one length. *)
Definition zip_with (f : float64 -> float64 -> float64)
  (a b : list float64) : list float64 :=
  map (fun p => f (fst p) (snd p)) (combine a b).

(** [np.arange(start, stop)] on integers: [start, start+1, ..., stop-1],
    empty when [stop <= start]. *)
Definition np_arange (start stop : Z) : list Z :=
  map (fun k => (start + Z.of_nat k)%Z) (seq 0 (Z.to_nat (stop - start))).

(** [a[-1]] on an array and [s.iloc[-1]] on a Series. *)
Fixpoint iloc_last {A : Type} (l : list A) : result A :=
  match l with
  | [] => Raise IndexError
  | [a] => Ok a
  | _ :: l' => iloc_last l'
  end.

(** [Series.std()]: pandas skips [nan] entries, divides by [count - 1]
    ([ddof = 1]) and gives [nan] when [count <= 1]. *)
Definition pd_std (s : list float64) : float64 :=
  let values := filter (fun v => negb (isnan v)) s in
  let count := Z.of_nat (length values) in
  if (count <=? 1)%Z then NaN
  else
    let avg := fdiv (np_sum values) (of_int count) in
    let sqr := map (fun v => fpow2 (fsub avg v)) values in
    fsqrt (fdiv (np_sum sqr) (of_int (count - 1))).

(** Timestamps in nanoseconds. *)
Definition Timestamp : Type := Z.

Definition NS_PER_DAY : Z := 86400000000000.

(** [timedelta(days=d)] *)
Definition timedelta (days : Z) : Z := (days * NS_PER_DAY)%Z.

(** [Timedelta.days]: whole days, rounded down. *)
Definition dt_days (delta : Z) : Z := (delta / NS_PER_DAY)%Z.

(** The index of [n] daily stamps that starts at [start]. *)
Definition daily_index (start : Timestamp) (n : nat) : list Timestamp :=
  map (fun k => (start + timedelta (Z.of_nat k))%Z) (seq 0 n).

(** [pd.date_range(start=start, periods=periods)] with the default daily
    frequency: [start], [start + 1 day], ...  A count of zero gives the
    empty index; a negative count is rejected with an exception. *)
Definition date_range (start : Timestamp) (periods : Z)
  : result (list Timestamp) :=
  if (periods <? 0)%Z then Raise DateRangeError
  else Ok (daily_index start (Z.to_nat periods)).

(** [Series.min()] of a datetime column; [NaT] on an empty column. *)
Definition ds_min (ds : list Timestamp) : option Timestamp :=
  match ds with
  | [] => None
  | d :: ds' => Some (fold_right Z.min d ds')
  end.

(** [st.sidebar.slider(label, min_value, max_value, value)]: the widget
    starts at [value] and only ever returns an integer of the closed range
    [min_value .. max_value]. *)
Record Slider : Type := mkSlider {
  min_value : Z;
  max_value : Z;
  value : Z
}.

Definition slider_returns (s : Slider) (v : Z) : bool :=
  ((min_value s <=? v) && (v <=? max_value s))%Z.

(* ================================================================= *)
(** ** The script *)

(** One row of the downloaded table: the date index and the [Close]
    column, either of which may be missing. *)
Record RawRow : Type := mkRawRow {
  raw_ds : option Timestamp;
  raw_close : float64
}.

(** One row of [df] once the missing values are gone. *)
Record Row : Type := mkRow {
  ds : Timestamp;
  price_usd : float64
}.

(** [df.dropna()] *)
Fixpoint dropna (raw : list RawRow) : list Row :=
  match raw with
  | [] => []
  | r :: raw' =>
      match raw_ds r with
      | Some d =>
          if isnan (raw_close r) then dropna raw'
          else mkRow d (raw_close r) :: dropna raw'
      | None => dropna raw'
      end
  end.

(** [load_gold]: the download is the argument [raw]; the columns are
    renamed and the rows with a missing value dropped. *)
Definition load_gold (raw : list RawRow) : list Row := dropna raw.

(** Grams per troy ounce, the literal [31.1035]. *)
Definition GRAMS_PER_OUNCE : float64 := Fin (311035 / 10000).

(** [df['price_idr'] = df['price_usd'] * kurs_idr / 31.1035] *)
Definition price_idr (df : list Row) (kurs_idr : float64) : list float64 :=
  map (fun r => fdiv (fmul (price_usd r) kurs_idr) GRAMS_PER_OUNCE) df.

(** [df['t'] = (df['ds'] - df['ds'].min()).dt.days] *)
Definition t (df : list Row) : list Z :=
  match ds_min (map ds df) with
  | None => []
  | Some d0 => map (fun r => dt_days (ds r - d0)) df
  end.

Definition x_mean (x : list Z) : float64 := np_mean (map of_int x).

Definition y_mean (y : list float64) : float64 := np_mean y.

(** [beta_1 = np.sum((x - x_mean) * (y - y_mean)) / np.sum((x - x_mean) ** 2)] *)
Definition beta_1 (x : list Z) (y : list float64) : float64 :=
  let dx := map (fun xi => fsub (of_int xi) (x_mean x)) x in
  let dy := map (fun yi => fsub yi (y_mean y)) y in
  fdiv (np_sum (zip_with fmul dx dy)) (np_sum (map fpow2 dx)).

(** [beta_0 = y_mean - beta_1 * x_mean] *)
Definition beta_0 (x : list Z) (y : list float64) : float64 :=
  fsub (y_mean y) (fmul (beta_1 x y) (x_mean x)).

(** [df['trend'] = beta_0 + beta_1 * x] *)
Definition trend (b0 b1 : float64) (x : list Z) : list float64 :=
  map (fun xi => fadd b0 (fmul b1 (of_int xi))) x.

(** [df['residual'] = y - df['trend']] *)
Definition residual (y tr : list float64) : list float64 :=
  zip_with fsub y tr.

(** [noise_std = df['residual'].std()] *)
Definition noise_std (res : list float64) : float64 := pd_std res.

(** [future_x = np.arange(x[-1] + 1, x[-1] + pred_days + 1)] *)
Definition future_x (x_last pred_days : Z) : list Z :=
  np_arange (x_last + 1) (x_last + pred_days + 1).

(** [future_y = beta_0 + beta_1 * future_x] *)
Definition future_y (b0 b1 : float64) (fx : list Z) : list float64 :=
  map (fun xi => fadd b0 (fmul b1 (of_int xi))) fx.

(** [future_dates = pd.date_range(start=df['ds'].iloc[-1] + timedelta(days=1),
                                  periods=pred_days)] *)
Definition future_dates (ds_last : Timestamp) (pred_days : Z)
  : result (list Timestamp) :=
  date_range (ds_last + timedelta 1)%Z pred_days.

(** [change_pct = (future_price - current_idr) / current_idr * 100] *)
Definition change_pct (future_price current_idr : float64) : float64 :=
  fmul (fdiv (fsub future_price current_idr) current_idr) (of_int 100).

(** The two labels of [trend_status]: "Tren Naik" and
    "Tren Turun / Stabil". *)
Inductive TrendStatus : Type :=
| TrenNaik
| TrenTurunStabil.

(** [trend_status = "Tren Naik" if change_pct > 0 else "Tren Turun / Stabil"] *)
Definition trend_status (pct : float64) : TrendStatus :=
  if fgt pct (of_int 0) then TrenNaik else TrenTurunStabil.

(** [pred_days = st.sidebar.slider("Periode Prediksi (hari)", 7, 180, 30)] *)
Definition pred_days_slider : Slider := mkSlider 7 180 30.

(** The fit: lines 120-131 of the script. *)
Record Fit : Type := mkFit {
  fit_beta_0 : float64;
  fit_beta_1 : float64;
  fit_trend : list float64;
  fit_residual : list float64;
  fit_noise_std : float64
}.

Definition fit (x : list Z) (y : list float64) : Fit :=
  let b1 := beta_1 x y in
  let b0 := beta_0 x y in
  let tr := trend b0 b1 x in
  let res := residual y tr in
  mkFit b0 b1 tr res (noise_std res).

(** The projection: lines 136-147.  [future_df] is the table of the two
    columns [ds] and [trend], both of [pred_days] entries. *)
Record Forecast : Type := mkForecast {
  fc_future_x : list Z;
  fc_future_y : list float64;
  fc_future_dates : list Timestamp;
  fc_future_df : list (Timestamp * float64)
}.

Definition forecast (df : list Row) (x : list Z) (b0 b1 : float64)
  (pred_days : Z) : result Forecast :=
  x_last <- iloc_last x ;;
  let fx := future_x x_last pred_days in
  let fy := future_y b0 b1 fx in
  ds_last <- iloc_last (map ds df) ;;
  fd <- future_dates ds_last pred_days ;;
  Ok (mkForecast fx fy fd (combine fd fy)).

(** The summary figures: lines 149-152. *)
Record Summary : Type := mkSummary {
  sum_current_idr : float64;
  sum_future_price : float64;
  sum_change_pct : float64;
  sum_trend_status : TrendStatus
}.

Definition summarize (current_idr : float64) (fy : list float64)
  : result Summary :=
  future_price <- iloc_last fy ;;
  let pct := change_pct future_price current_idr in
  Ok (mkSummary current_idr future_price pct (trend_status pct)).

(** Everything the page shows. *)
Record Page : Type := mkPage {
  page_df : list Row;
  page_price_idr : list float64;
  page_t : list Z;
  page_current_usd : float64;
  page_fit : Fit;
  page_forecast : Forecast;
  page_summary : Summary
}.

(** The script from [load_gold] to [trend_status], in the order of the
    source lines; [raw] is what the download returned, [kurs_idr] the
    rate and [pred_days] the slider value. *)
Definition script (raw : list RawRow) (kurs_idr : float64) (pred_days : Z)
  : result Page :=
  let df := load_gold raw in
  let y := price_idr df kurs_idr in
  current_usd <- iloc_last (map price_usd df) ;;
  current_idr <- iloc_last y ;;
  let x := t df in
  let f := fit x y in
  fc <- forecast df x (fit_beta_0 f) (fit_beta_1 f) pred_days ;;
  summary <- summarize current_idr (fc_future_y fc) ;;
  Ok (mkPage df y x current_usd f fc summary).

(* ================================================================= *)
(** ** Reference quantities in exact real arithmetic

    The closed forms of the specification, written over a series of
    [(timeIndex, value)] points with real values; the theorems below compare
    what the script computes with them. *)

Definition Rsum (l : list R) : R := fold_right Rplus 0%R l.

Definition Rmean (l : list R) : R := (Rsum l / INR (length l))%R.

Definition xs (pts : list (Z * R)) : list R := map (fun p => IZR (fst p)) pts.

Definition ys (pts : list (Z * R)) : list R := map snd pts.

(** The two columns of an analysis series as the script holds them. *)
Definition x_of (pts : list (Z * R)) : list Z := map fst pts.

Definition y_of (pts : list (Z * R)) : list float64 :=
  map (fun p => Fin (snd p)) pts.

(** [sum((x_i - xMean) * (y_i - yMean))] *)
Definition Sxy (pts : list (Z * R)) : R :=
  Rsum (map (fun p => ((IZR (fst p) - Rmean (xs pts))
                       * (snd p - Rmean (ys pts)))%R) pts).

(** [sum((x_i - xMean)^2)] *)
Definition Sxx (pts : list (Z * R)) : R :=
  Rsum (map (fun p => ((IZR (fst p) - Rmean (xs pts))
                       * (IZR (fst p) - Rmean (xs pts)))%R) pts).

Definition ols_slope (pts : list (Z * R)) : R := (Sxy pts / Sxx pts)%R.

Definition ols_intercept (pts : list (Z * R)) : R :=
  (Rmean (ys pts) - ols_slope pts * Rmean (xs pts))%R.

(** The residual of a point against the line [a + b * x]. *)
Definition resid (a b : R) (p : Z * R) : R :=
  (snd p - (a + b * IZR (fst p)))%R.

(** Sum of squared residuals of the line [a + b * x]. *)
Definition sse (a b : R) (pts : list (Z * R)) : R :=
  Rsum (map (fun p => (resid a b p * resid a b p)%R) pts).

(** Sample standard deviation: squared deviations from the mean, divided
    by [n - 1], square-rooted. *)
Definition sample_std (l : list R) : R :=
  sqrt (Rsum (map (fun v => ((v - Rmean l) * (v - Rmean l))%R) l)
        / (INR (length l) - 1)).

(** A series has two distinct time indices. *)
Definition two_distinct (pts : list (Z * R)) : Prop :=
  exists p q, In p pts /\ In q pts /\ fst p <> fst q.

(** Consecutive entries of a time axis are exactly one day apart. *)
Definition gap_free (tx : list Z) : Prop :=
  forall i a b,
    nth_error tx i = Some a -> nth_error tx (S i) = Some b -> b = (a + 1)%Z.

(** A raw row is valid when neither the date nor the price is missing. *)
Definition valid_row (r : RawRow) : bool :=
  match raw_ds r with
  | Some _ => negb (isnan (raw_close r))
  | None => false
  end.

Definition to_raw (r : Row) : RawRow := mkRawRow (Some (ds r)) (price_usd r).

(** Midnight of day number [d]. *)
Definition day (d : Z) : Timestamp := timedelta d.

(** Sample inputs. *)

(** A Friday and the following Monday. *)
Definition weekend_raw : list RawRow :=
  [ mkRawRow (Some (day 0)) (Fin 2000); mkRawRow (Some (day 3)) (Fin 2010) ].

(** One valid row between two rows with a missing price. *)
Definition one_point_raw : list RawRow :=
  [ mkRawRow (Some (day 0)) NaN; mkRawRow (Some (day 1)) (Fin 2000);
    mkRawRow (Some (day 2)) NaN ].

(** Two valid rows on consecutive days. *)
Definition two_point_raw : list RawRow :=
  [ mkRawRow (Some (day 0)) (Fin 2000); mkRawRow (Some (day 1)) (Fin 2010) ].

(** Two rows stamped on the same day. *)
Definition same_day_raw : list RawRow :=
  [ mkRawRow (Some (day 0)) (Fin 2000); mkRawRow (Some (day 0)) (Fin 2010) ].

(** The series [(0, 100), (1, 110), (2, 120)]. *)
Definition line_pts : list (Z * R) := [ (0%Z, 100%R); (1%Z, 110%R); (2%Z, 120%R) ].

(** The flat series [(0, 100), (1, 100), (2, 100)]. *)
Definition flat_pts : list (Z * R) := [ (0%Z, 100%R); (1%Z, 100%R); (2%Z, 100%R) ].

(* ================================================================= *)
(** ** The sidebar and the date range *)

(** A [datetime.datetime] is the integer number of microseconds since the
    epoch, the resolution of the Python type. *)
Definition datetime : Type := Z.

Definition US_PER_DAY : Z := 86400000000.

(** [datetime.timedelta(days=d)] *)
Definition py_timedelta (days : Z) : Z := (days * US_PER_DAY)%Z.

(** The chain of lines 73-80 on the label chosen in the select box. *)
Definition start_date (hist_period : string) (today : datetime) : datetime :=
  if String.eqb hist_period "6 Bulan" then (today - py_timedelta 180)%Z
  else if String.eqb hist_period "1 Tahun" then (today - py_timedelta 365)%Z
  else if String.eqb hist_period "2 Tahun" then (today - py_timedelta (365 * 2))%Z
  else (today - py_timedelta (365 * 3))%Z.

(** [st.sidebar.number_input(label, min_value, max_value, value, step)]:
    the widget starts at [value] and only ever returns a number of the
    closed range [min_value .. max_value]. *)
Record NumberInput : Type := mkNumberInput {
  ni_min_value : Z;
  ni_max_value : Z;
  ni_value : Z;
  ni_step : Z
}.

Definition number_input_returns (w : NumberInput) (v : Z) : bool :=
  ((ni_min_value w <=? v) && (v <=? ni_max_value w))%Z.

(** The manual rate input of lines 54-60. *)
Definition kurs_input : NumberInput := mkNumberInput 10000 20000 16000 50.

(** Lines 51-60: the rate is what [get_kurs_api()] returned, or the manual
    input. *)
Definition kurs_idr_of (kurs_mode : string) (api_rate : float64) (manual : Z)
  : float64 :=
  if String.eqb kurs_mode "API (Real-time)" then api_rate else of_int manual.

(** *** Reading a table as a real-valued series *)

(** The real number held by a finite value. *)
Definition real_of (a : float64) : R :=
  match a with
  | Fin r => r
  | _ => 0%R
  end.

Definition all_finite (a : list float64) : bool := forallb isfinite a.

(** The series of the two columns [x] and [y]. *)
Definition pts_of (x : list Z) (y : list float64) : list (Z * R) :=
  combine x (map real_of y).

(** The same series with every value multiplied by [s]. *)
Definition scale_pts (s : R) (pts : list (Z * R)) : list (Z * R) :=
  map (fun p => (fst p, (s * snd p)%R)) pts.

(** The same table with every date moved by [c] nanoseconds. *)
Definition shift_df (c : Z) (df : list Row) : list Row :=
  map (fun r => mkRow (ds r + c)%Z (price_usd r)) df.

(* ================================================================= *)
(** ** Arithmetic of finite values *)

Local Open Scope R_scope.

(** The operations that decide an order on the reals are unfolded by
    hand. *)
Arguments fdiv : simpl never.
Arguments fsqrt : simpl never.
Arguments fgt : simpl never.

Lemma Rsgn_zero : Rsgn 0 = Eq.
Proof.
  unfold Rsgn. destruct (total_order_T 0 0) as [[H | H] | H]; try reflexivity; lra.
Qed.

Lemma Rsgn_pos (r : R) : 0 < r -> Rsgn r = Gt.
Proof.
  intros Hr. unfold Rsgn.
  destruct (total_order_T r 0) as [[H | H] | H]; try reflexivity; lra.
Qed.

Lemma Rsgn_neg (r : R) : r < 0 -> Rsgn r = Lt.
Proof.
  intros Hr. unfold Rsgn.
  destruct (total_order_T r 0) as [[H | H] | H]; try reflexivity; lra.
Qed.

Lemma fdiv_fin (a b : R) : b <> 0 -> fdiv (Fin a) (Fin b) = Fin (a / b).
Proof.
  intros Hb. unfold fdiv. destruct (Req_dec_T b 0); [contradiction | reflexivity].
Qed.

Lemma fdiv_zero_zero (a b : R) : a = 0 -> b = 0 -> fdiv (Fin a) (Fin b) = NaN.
Proof.
  intros -> ->. unfold fdiv.
  destruct (Req_dec_T 0 0) as [_ | H]; [| now elim H].
  now rewrite Rsgn_zero.
Qed.

Lemma fsqrt_fin (r : R) : 0 <= r -> fsqrt (Fin r) = Fin (sqrt r).
Proof.
  intros Hr. unfold fsqrt. destruct (Rlt_dec r 0); [lra | reflexivity].
Qed.

Lemma fgt_fin (a b : R) : fgt (Fin a) (Fin b) = true <-> b < a.
Proof.
  unfold fgt. destruct (Rlt_dec b a); split; intros; try assumption;
    try reflexivity; try discriminate; contradiction.
Qed.

Lemma Fin_eq (a b : R) : a = b -> Fin a = Fin b.
Proof. now intros ->. Qed.

(** *** Sums *)

Lemma np_sum_fin (l : list R) : np_sum (map Fin l) = Fin (Rsum l).
Proof.
  induction l as [| a l IH]; [reflexivity |].
  unfold np_sum in *. simpl. now rewrite IH.
Qed.

Lemma INR_of_nat (n : nat) : IZR (Z.of_nat n) = INR n.
Proof. symmetry. apply INR_IZR_INZ. Qed.

Lemma INR_length_pos (A : Type) (l : list A) : l <> [] -> 0 < INR (length l).
Proof.
  intros Hl. destruct l as [| a l]; [now elim Hl |].
  apply lt_0_INR. simpl. lia.
Qed.

Lemma np_mean_fin (l : list R) :
  l <> [] -> np_mean (map Fin l) = Fin (Rmean l).
Proof.
  intros Hl. unfold np_mean, of_int, Rmean.
  rewrite np_sum_fin, length_map, INR_of_nat.
  apply fdiv_fin. pose proof (INR_length_pos Hl). lra.
Qed.

Lemma Rsum_map_ext (A : Type) (f g : A -> R) (l : list A) :
  (forall a, In a l -> f a = g a) -> Rsum (map f l) = Rsum (map g l).
Proof.
  intros H. f_equal. apply map_ext_in. exact H.
Qed.

Lemma Rsum_sq_nonneg (A : Type) (f : A -> R) (l : list A) :
  0 <= Rsum (map (fun a => f a * f a) l).
Proof.
  induction l as [| a l IH]; simpl; [lra |].
  unfold Rsum in *. simpl. nra.
Qed.

Lemma Rsum_sq_zero (A : Type) (f : A -> R) (l : list A) :
  Rsum (map (fun a => f a * f a) l) = 0 -> forall a, In a l -> f a = 0.
Proof.
  induction l as [| b l IH]; intros Hs a Ha; [destruct Ha |].
  pose proof (Rsum_sq_nonneg f l) as Hn.
  unfold Rsum in *. simpl in Hs.
  destruct Ha as [-> | Ha].
  - nra.
  - apply IH; [nra | exact Ha].
Qed.

(** *** The fit on a finite series *)

Lemma zip_with_map (A : Type) (f : float64 -> float64 -> float64)
  (g h : A -> float64) (l : list A) :
  zip_with f (map g l) (map h l) = map (fun a => f (g a) (h a)) l.
Proof.
  unfold zip_with. induction l as [| a l IH]; simpl; [reflexivity |].
  now rewrite IH.
Qed.

Lemma x_mean_fin (pts : list (Z * R)) :
  pts <> [] -> x_mean (x_of pts) = Fin (Rmean (xs pts)).
Proof.
  intros Hp. unfold x_mean, x_of, xs.
  rewrite map_map.
  rewrite <- (map_map (fun p : Z * R => IZR (fst p)) Fin).
  apply np_mean_fin. destruct pts; [now elim Hp | discriminate].
Qed.

Lemma y_mean_fin (pts : list (Z * R)) :
  pts <> [] -> y_mean (y_of pts) = Fin (Rmean (ys pts)).
Proof.
  intros Hp. unfold y_mean, y_of, ys.
  rewrite <- (map_map snd Fin).
  apply np_mean_fin. destruct pts; [now elim Hp | discriminate].
Qed.

Lemma beta_1_fdiv (pts : list (Z * R)) :
  pts <> [] ->
  beta_1 (x_of pts) (y_of pts) = fdiv (Fin (Sxy pts)) (Fin (Sxx pts)).
Proof.
  intros Hp. unfold beta_1.
  rewrite (x_mean_fin Hp), (y_mean_fin Hp).
  unfold x_of at 1 2, y_of. rewrite !map_map.
  rewrite zip_with_map. simpl.
  rewrite <- (map_map
    (fun p : Z * R => (IZR (fst p) - Rmean (xs pts)) * (snd p - Rmean (ys pts)))
    Fin).
  rewrite <- (map_map
    (fun p : Z * R => (IZR (fst p) - Rmean (xs pts)) * (IZR (fst p) - Rmean (xs pts)))
    Fin).
  now rewrite !np_sum_fin.
Qed.

Lemma two_distinct_nonempty (pts : list (Z * R)) : two_distinct pts -> pts <> [].
Proof.
  intros (p & q & Hp & _ & _) ->. destruct Hp.
Qed.

Lemma Sxx_pos (pts : list (Z * R)) : two_distinct pts -> 0 < Sxx pts.
Proof.
  intros (p & q & Hp & Hq & Hne).
  pose proof (Rsum_sq_nonneg (fun p : Z * R => IZR (fst p) - Rmean (xs pts)) pts) as Hn.
  destruct (Req_dec_T (Sxx pts) 0) as [Hz | Hz]; [| unfold Sxx in *; lra].
  exfalso. apply Hne. apply eq_IZR.
  pose proof (Rsum_sq_zero _ _ Hz p Hp) as H1.
  pose proof (Rsum_sq_zero _ _ Hz q Hq) as H2.
  simpl in H1, H2. lra.
Qed.

Lemma beta_1_fin (pts : list (Z * R)) :
  two_distinct pts -> beta_1 (x_of pts) (y_of pts) = Fin (ols_slope pts).
Proof.
  intros Hd. rewrite (beta_1_fdiv (two_distinct_nonempty Hd)).
  apply fdiv_fin. pose proof (Sxx_pos Hd). lra.
Qed.

Lemma beta_0_fin (pts : list (Z * R)) :
  two_distinct pts -> beta_0 (x_of pts) (y_of pts) = Fin (ols_intercept pts).
Proof.
  intros Hd. pose proof (two_distinct_nonempty Hd) as Hp.
  unfold beta_0. rewrite (beta_1_fin Hd), (x_mean_fin Hp), (y_mean_fin Hp).
  reflexivity.
Qed.

(** *** Least squares *)

(** The plain sums of a series. *)
Lemma Rsum_x_shift (u : R) (pts : list (Z * R)) :
  Rsum (map (fun p : Z * R => IZR (fst p) - u) pts)
  = Rsum (xs pts) - INR (length pts) * u.
Proof.
  induction pts as [| p pts IH]; [simpl; lra |].
  change (length (p :: pts)) with (S (length pts)). rewrite S_INR.
  unfold Rsum, xs in *. simpl. rewrite IH. ring.
Qed.

Lemma Rsum_y_shift (v : R) (pts : list (Z * R)) :
  Rsum (map (fun p : Z * R => snd p - v) pts)
  = Rsum (ys pts) - INR (length pts) * v.
Proof.
  induction pts as [| p pts IH]; [simpl; lra |].
  change (length (p :: pts)) with (S (length pts)). rewrite S_INR.
  unfold Rsum, ys in *. simpl. rewrite IH. ring.
Qed.

(** Centring at the mean makes the deviations sum to zero. *)
Lemma Rsum_dx_zero (pts : list (Z * R)) :
  pts <> [] ->
  Rsum (map (fun p : Z * R => IZR (fst p) - Rmean (xs pts)) pts) = 0.
Proof.
  intros Hp. rewrite Rsum_x_shift. unfold Rmean, xs. rewrite length_map.
  pose proof (INR_length_pos Hp). field. lra.
Qed.

Lemma Rsum_dy_zero (pts : list (Z * R)) :
  pts <> [] ->
  Rsum (map (fun p : Z * R => snd p - Rmean (ys pts)) pts) = 0.
Proof.
  intros Hp. rewrite Rsum_y_shift. unfold Rmean, ys. rewrite length_map.
  pose proof (INR_length_pos Hp). field. lra.
Qed.

(** The residuals of the line through the means with slope [b], in
    centred form. *)
Lemma Rsum_resid_centred (xm ym b : R) (pts : list (Z * R)) :
  Rsum (map (resid (ym - b * xm) b) pts)
  = Rsum (map (fun p : Z * R => snd p - ym) pts)
    - b * Rsum (map (fun p : Z * R => IZR (fst p) - xm) pts).
Proof.
  induction pts as [| p pts IH]; [simpl; lra |].
  unfold Rsum, resid in *. simpl. rewrite IH. ring.
Qed.

Lemma Rsum_resid_dx_centred (xm ym b : R) (pts : list (Z * R)) :
  Rsum (map (fun p : Z * R => resid (ym - b * xm) b p * (IZR (fst p) - xm)) pts)
  = Rsum (map (fun p : Z * R => (IZR (fst p) - xm) * (snd p - ym)) pts)
    - b * Rsum (map (fun p : Z * R => (IZR (fst p) - xm) * (IZR (fst p) - xm)) pts).
Proof.
  induction pts as [| p pts IH]; [simpl; lra |].
  unfold Rsum, resid in *. simpl. rewrite IH. ring.
Qed.

(** The squared error of any line, split around the line [(a0, b0)]. *)
Lemma sse_split (xm a0 b0 a b : R) (pts : list (Z * R)) :
  sse a b pts
  = sse a0 b0 pts
    + 2 * ((a0 - a + (b0 - b) * xm) * Rsum (map (resid a0 b0) pts)
           + (b0 - b)
             * Rsum (map (fun p : Z * R => resid a0 b0 p * (IZR (fst p) - xm)) pts))
    + Rsum (map (fun p : Z * R =>
                   (a0 - a + (b0 - b) * IZR (fst p))
                   * (a0 - a + (b0 - b) * IZR (fst p))) pts).
Proof.
  induction pts as [| p pts IH]; [unfold sse; simpl; lra |].
  unfold sse, Rsum, resid in *. simpl. rewrite IH. ring.
Qed.

(** The normal equations of the fitted line. *)
Lemma ols_resid_sum_zero (pts : list (Z * R)) :
  pts <> [] ->
  Rsum (map (resid (ols_intercept pts) (ols_slope pts)) pts) = 0.
Proof.
  intros Hp. unfold ols_intercept.
  rewrite Rsum_resid_centred, (Rsum_dx_zero Hp), (Rsum_dy_zero Hp). ring.
Qed.

Lemma ols_resid_dx_zero (pts : list (Z * R)) :
  two_distinct pts ->
  Rsum (map (fun p : Z * R =>
               resid (ols_intercept pts) (ols_slope pts) p
               * (IZR (fst p) - Rmean (xs pts))) pts) = 0.
Proof.
  intros Hd. unfold ols_intercept. rewrite Rsum_resid_dx_centred.
  fold (Sxy pts). fold (Sxx pts). unfold ols_slope.
  pose proof (Sxx_pos Hd). field. lra.
Qed.

Lemma ols_minimizes (pts : list (Z * R)) (a b : R) :
  two_distinct pts ->
  sse (ols_intercept pts) (ols_slope pts) pts <= sse a b pts.
Proof.
  intros Hd.
  rewrite (sse_split (Rmean (xs pts)) (ols_intercept pts) (ols_slope pts) a b pts).
  rewrite (ols_resid_sum_zero (two_distinct_nonempty Hd)), (ols_resid_dx_zero Hd).
  pose proof (Rsum_sq_nonneg
    (fun p : Z * R =>
       ols_intercept pts - a + (ols_slope pts - b) * IZR (fst p)) pts).
  lra.
Qed.

(** *** Residuals and their standard deviation *)

Lemma trend_fin (a b : R) (pts : list (Z * R)) :
  trend (Fin a) (Fin b) (x_of pts)
  = map (fun p : Z * R => Fin (a + b * IZR (fst p))) pts.
Proof.
  unfold trend, x_of. rewrite map_map. reflexivity.
Qed.

Lemma residual_fin (a b : R) (pts : list (Z * R)) :
  residual (y_of pts) (trend (Fin a) (Fin b) (x_of pts))
  = map Fin (map (resid a b) pts).
Proof.
  rewrite trend_fin. unfold residual, y_of.
  rewrite zip_with_map, map_map. reflexivity.
Qed.

Lemma filter_notnan_fin (l : list R) :
  filter (fun v => negb (isnan v)) (map Fin l) = map Fin l.
Proof.
  induction l as [| a l IH]; simpl; [reflexivity | now rewrite IH].
Qed.

Lemma pd_std_fin (l : list R) :
  (2 <= length l)%nat -> pd_std (map Fin l) = Fin (sample_std l).
Proof.
  intros Hn. unfold pd_std.
  rewrite filter_notnan_fin, length_map.
  destruct (Z.leb_spec (Z.of_nat (length l)) 1) as [Hle | Hgt]; [lia |].
  assert (Hl : l <> []) by (intros ->; simpl in Hn; lia).
  assert (Hpos : 1 < INR (length l)).
  { replace 1 with (INR 1) by reflexivity. apply lt_INR. lia. }
  fold (np_mean (map Fin l)) in |- *.
  unfold of_int at 1. rewrite INR_of_nat.
  rewrite np_sum_fin, fdiv_fin by lra. fold (Rmean l).
  rewrite map_map. simpl.
  rewrite <- (map_map (fun v : R => (Rmean l - v) * (Rmean l - v)) Fin).
  rewrite np_sum_fin. unfold of_int.
  rewrite minus_IZR, INR_of_nat, fdiv_fin by lra.
  rewrite fsqrt_fin.
  - unfold sample_std. apply Fin_eq. f_equal. f_equal.
    apply Rsum_map_ext. intros; ring.
  - pose proof (Rsum_sq_nonneg (fun v : R => Rmean l - v) l) as Hs.
    apply Rmult_le_pos; [exact Hs |].
    apply Rlt_le, Rinv_0_lt_compat. lra.
Qed.

Lemma two_distinct_length (pts : list (Z * R)) :
  two_distinct pts -> (2 <= length pts)%nat.
Proof.
  intros (p & q & Hp & Hq & Hne).
  destruct pts as [| a [| b pts]]; simpl in *; try lia.
  destruct Hp as [<- | []], Hq as [<- | []]. now elim Hne.
Qed.

(* ================================================================= *)
(** ** The Trend Fitter *)

(** C1.  On a series with at least two distinct time indices the fit
    returns the slope [Sxy / Sxx] and the intercept
    [yMean - slope * xMean], and no line has a smaller sum of squared
    residuals than this one. *)
Theorem fit_is_least_squares (pts : list (Z * R)) (Hd : two_distinct pts) :
  fit_beta_1 (fit (x_of pts) (y_of pts)) = Fin (Sxy pts / Sxx pts) /\
  fit_beta_0 (fit (x_of pts) (y_of pts))
    = Fin (Rmean (ys pts) - (Sxy pts / Sxx pts) * Rmean (xs pts)) /\
  forall a b : R,
    sse (Rmean (ys pts) - (Sxy pts / Sxx pts) * Rmean (xs pts))
        (Sxy pts / Sxx pts) pts
    <= sse a b pts.
Proof.
  split; [| split].
  - apply (beta_1_fin Hd).
  - apply (beta_0_fin Hd).
  - intros a b. apply (ols_minimizes a b Hd).
Qed.

Lemma line_pts_two_distinct : two_distinct line_pts.
Proof.
  exists (0%Z, 100), (1%Z, 110). simpl. repeat split; auto. discriminate.
Qed.

Lemma fit_is_least_squares_witness :
  two_distinct line_pts /\
  fit_beta_1 (fit (x_of line_pts) (y_of line_pts))
    = Fin (Sxy line_pts / Sxx line_pts).
Proof.
  split; [exact line_pts_two_distinct |].
  apply (fit_is_least_squares line_pts_two_distinct).
Defined.

(** C4.  On a fitted series the residual of every point is
    [value - (intercept + slope * x)], and [noise_std] is the sample
    standard deviation of these residuals (divisor [n - 1]). *)
Theorem noise_std_is_sample_std (pts : list (Z * R)) (Hd : two_distinct pts) :
  let f := fit (x_of pts) (y_of pts) in
  let a := ols_intercept pts in
  let b := ols_slope pts in
  (2 <= length pts)%nat /\
  fit_beta_0 f = Fin a /\ fit_beta_1 f = Fin b /\
  fit_residual f = map (fun p => Fin (snd p - (a + b * IZR (fst p)))) pts /\
  fit_noise_std f = Fin (sample_std (map (resid a b) pts)) /\
  sample_std (map (resid a b) pts)
  = sqrt (Rsum (map (fun p => (resid a b p - Rmean (map (resid a b) pts))
                              * (resid a b p - Rmean (map (resid a b) pts))) pts)
          / (INR (length pts) - 1)).
Proof.
  intros f a b. pose proof (two_distinct_length Hd) as Hn.
  assert (Hres : fit_residual f = map Fin (map (resid a b) pts)).
  { unfold f, fit. simpl. rewrite (beta_0_fin Hd), (beta_1_fin Hd).
    apply residual_fin. }
  repeat split.
  - exact Hn.
  - apply (beta_0_fin Hd).
  - apply (beta_1_fin Hd).
  - rewrite Hres, map_map. reflexivity.
  - change (fit_noise_std f) with (noise_std (fit_residual f)).
    rewrite Hres. unfold noise_std. apply pd_std_fin.
    now rewrite length_map.
  - unfold sample_std. rewrite map_map, length_map. reflexivity.
Qed.

Lemma noise_std_is_sample_std_witness :
  two_distinct line_pts /\
  fit_noise_std (fit (x_of line_pts) (y_of line_pts))
  = Fin (sample_std (map (resid (ols_intercept line_pts) (ols_slope line_pts))
                         line_pts)).
Proof.
  split; [exact line_pts_two_distinct |].
  apply (noise_std_is_sample_std line_pts_two_distinct).
Defined.

(* ================================================================= *)
(** ** Arrays, last elements and ranges *)

Lemma iloc_last_snoc (A : Type) (l : list A) (a : A) :
  iloc_last (l ++ [a]) = Ok a.
Proof.
  induction l as [| b l IH]; [reflexivity |].
  simpl. destruct (l ++ [a]) eqn:E; [| exact IH].
  destruct l; discriminate.
Qed.

Lemma iloc_last_nonempty (A : Type) (l : list A) :
  l <> [] -> exists a, iloc_last l = Ok a.
Proof.
  intros Hl. destruct (exists_last Hl) as (l' & a & ->).
  exists a. apply iloc_last_snoc.
Qed.

Lemma iloc_last_nil (A : Type) (l : list A) (e : exn) :
  iloc_last l = Raise e -> l = [] /\ e = IndexError.
Proof.
  intros H. destruct l as [| a l].
  - simpl in H. split; congruence.
  - assert (Hne : a :: l <> []) by discriminate.
    destruct (iloc_last_nonempty Hne) as (b & Hb). congruence.
Qed.

Lemma nonempty_length (A : Type) (l : list A) : (0 < length l)%nat -> l <> [].
Proof. intros H ->. simpl in H. lia. Qed.

Lemma np_arange_length (start stop : Z) :
  length (np_arange start stop) = Z.to_nat (stop - start).
Proof. unfold np_arange. now rewrite length_map, length_seq. Qed.

Lemma np_arange_empty (start stop : Z) :
  (stop <= start)%Z -> np_arange start stop = [].
Proof.
  intros H. unfold np_arange.
  replace (Z.to_nat (stop - start)) with 0%nat by lia. reflexivity.
Qed.

Lemma future_x_length (x_last pred_days : Z) :
  length (future_x x_last pred_days) = Z.to_nat pred_days.
Proof.
  unfold future_x. rewrite np_arange_length. f_equal. lia.
Qed.

Lemma future_y_length (b0 b1 : float64) (fx : list Z) :
  length (future_y b0 b1 fx) = length fx.
Proof. unfold future_y. apply length_map. Qed.

Lemma daily_index_length (start : Timestamp) (n : nat) :
  length (daily_index start n) = n.
Proof. unfold daily_index. now rewrite length_map, length_seq. Qed.

Lemma date_range_ok (start : Timestamp) (periods : Z) :
  (0 <= periods)%Z ->
  date_range start periods = Ok (daily_index start (Z.to_nat periods)).
Proof.
  intros H. unfold date_range.
  destruct (Z.ltb_spec periods 0); [lia | reflexivity].
Qed.


Lemma combine_map_same (A B C : Type) (f : A -> B) (g : A -> C) (l : list A) :
  combine (map f l) (map g l) = map (fun a => (f a, g a)) l.
Proof.
  induction l as [| a l IH]; simpl; [reflexivity | now rewrite IH].
Qed.

(** The forecast table, row by row. *)
Lemma future_df_rows (b0 b1 : float64) (x_last : Z) (ds_last : Timestamp)
  (pred_days : Z) :
  combine (daily_index (ds_last + timedelta 1)%Z (Z.to_nat pred_days))
          (future_y b0 b1 (future_x x_last pred_days))
  = map (fun k => ((ds_last + timedelta 1 + timedelta (Z.of_nat k))%Z,
                   fadd b0 (fmul b1 (of_int (x_last + 1 + Z.of_nat k)))))
        (seq 0 (Z.to_nat pred_days)).
Proof.
  unfold daily_index, future_y, future_x, np_arange.
  replace (x_last + pred_days + 1 - (x_last + 1))%Z with pred_days by lia.
  rewrite map_map. apply combine_map_same.
Qed.

Lemma nth_error_map_seq (A : Type) (f : nat -> A) (n i : nat) :
  (i < n)%nat -> nth_error (map f (seq 0 n)) i = Some (f i).
Proof.
  intros Hi. rewrite nth_error_map, nth_error_seq.
  destruct (Nat.ltb_spec i n); [reflexivity | lia].
Qed.

(** *** The table after [dropna] and its time axis *)

Lemma dropna_filter (raw : list RawRow) :
  map to_raw (dropna raw) = filter valid_row raw.
Proof.
  induction raw as [| r raw IH]; [reflexivity |].
  destruct r as [[d |] c]; simpl; [| exact IH].
  unfold valid_row at 1. simpl.
  destruct (isnan c); simpl; [exact IH |].
  now rewrite IH.
Qed.

Lemma t_length (df : list Row) : length (t df) = length df.
Proof.
  unfold t. destruct df as [| r df]; [reflexivity |].
  simpl. now rewrite length_map.
Qed.

Lemma price_idr_length (df : list Row) (kurs_idr : float64) :
  length (price_idr df kurs_idr) = length df.
Proof. unfold price_idr. apply length_map. Qed.

Lemma fold_min_head (d : Z) (l : list Z) :
  Forall (Z.le d) l -> fold_right Z.min d l = d.
Proof.
  induction 1 as [| a l Ha _ IH]; simpl; [reflexivity |].
  rewrite IH. lia.
Qed.

Lemma fold_min_le (d : Z) (l : list Z) :
  (fold_right Z.min d l <= d)%Z /\ Forall (Z.le (fold_right Z.min d l)) l.
Proof.
  induction l as [| a l [IH1 IH2]]; simpl; [split; [lia | constructor] |].
  split; [lia |]. constructor; [lia |].
  eapply Forall_impl; [| exact IH2]. simpl. intros; lia.
Qed.

Lemma NS_PER_DAY_pos : (0 < NS_PER_DAY)%Z.
Proof. reflexivity. Qed.

Lemma dt_days_mono (a b : Z) : (a <= b)%Z -> (dt_days a <= dt_days b)%Z.
Proof.
  intros H. unfold dt_days. apply Z.div_le_mono; [exact NS_PER_DAY_pos | exact H].
Qed.

Lemma dt_days_timedelta (d : Z) : dt_days (timedelta d) = d.
Proof.
  unfold dt_days, timedelta. apply Z.div_mul.
  pose proof NS_PER_DAY_pos. lia.
Qed.

Lemma StronglySorted_map_mono (A B : Type) (RA : A -> A -> Prop)
  (RB : B -> B -> Prop) (f : A -> B) (l : list A) :
  (forall a b, RA a b -> RB (f a) (f b)) ->
  StronglySorted RA l -> StronglySorted RB (map f l).
Proof.
  intros Hf. induction 1 as [| a l Hs IH Ha]; simpl; constructor.
  - exact IH.
  - apply Forall_map. eapply Forall_impl; [| exact Ha]. intros b. apply Hf.
Qed.

(** *** Running the script *)

Lemma forecast_ok (df : list Row) (x : list Z) (b0 b1 : float64)
  (pred_days x_last : Z) (ds_last : Timestamp) :
  iloc_last x = Ok x_last ->
  iloc_last (map ds df) = Ok ds_last ->
  (0 <= pred_days)%Z ->
  forecast df x b0 b1 pred_days
  = Ok (mkForecast (future_x x_last pred_days)
          (future_y b0 b1 (future_x x_last pred_days))
          (daily_index (ds_last + timedelta 1)%Z (Z.to_nat pred_days))
          (combine (daily_index (ds_last + timedelta 1)%Z (Z.to_nat pred_days))
                   (future_y b0 b1 (future_x x_last pred_days)))).
Proof.
  intros Hx Hd Hh. unfold forecast. rewrite Hx. simpl. rewrite Hd. simpl.
  unfold future_dates. rewrite (date_range_ok _ Hh). reflexivity.
Qed.

Lemma summarize_ok (current_idr future_price : float64) (fy : list float64) :
  iloc_last fy = Ok future_price ->
  summarize current_idr fy
  = Ok (mkSummary current_idr future_price
          (change_pct future_price current_idr)
          (trend_status (change_pct future_price current_idr))).
Proof.
  intros H. unfold summarize. rewrite H. reflexivity.
Qed.

Lemma summarize_raises (current_idr : float64) (fy : list float64) (e : exn) :
  summarize current_idr fy = Raise e -> fy = [] /\ e = IndexError.
Proof.
  unfold summarize. destruct (iloc_last fy) as [fp | e'] eqn:E; simpl.
  - discriminate.
  - intros [= <-]. apply (iloc_last_nil _ E).
Qed.

Lemma future_y_nonempty (b0 b1 : float64) (x_last pred_days : Z) :
  (1 <= pred_days)%Z -> future_y b0 b1 (future_x x_last pred_days) <> [].
Proof.
  intros H. apply nonempty_length.
  rewrite future_y_length, future_x_length. lia.
Qed.

Lemma script_empty (raw : list RawRow) (kurs_idr : float64) (pred_days : Z) :
  load_gold raw = [] -> script raw kurs_idr pred_days = Raise IndexError.
Proof.
  intros H. unfold script. rewrite H. reflexivity.
Qed.

Lemma script_runs (raw : list RawRow) (kurs_idr : float64) (pred_days : Z) :
  load_gold raw <> [] ->
  (1 <= pred_days)%Z ->
  exists page,
    script raw kurs_idr pred_days = Ok page /\
    page_df page = load_gold raw /\
    page_t page = t (load_gold raw) /\
    page_price_idr page = price_idr (load_gold raw) kurs_idr /\
    page_fit page
    = fit (t (load_gold raw)) (price_idr (load_gold raw) kurs_idr) /\
    iloc_last (page_price_idr page) = Ok (sum_current_idr (page_summary page)) /\
    iloc_last (fc_future_y (page_forecast page))
    = Ok (sum_future_price (page_summary page)) /\
    sum_change_pct (page_summary page)
    = change_pct (sum_future_price (page_summary page))
                 (sum_current_idr (page_summary page)) /\
    sum_trend_status (page_summary page)
    = trend_status (sum_change_pct (page_summary page)).
Proof.
  intros Hne Hh.
  assert (Hlen : (0 < length (load_gold raw))%nat).
  { destruct (load_gold raw); [now elim Hne | simpl; lia]. }
  destruct (@iloc_last_nonempty _ (map price_usd (load_gold raw))) as (cu & Hcu).
  { apply nonempty_length. now rewrite length_map. }
  destruct (@iloc_last_nonempty _ (price_idr (load_gold raw) kurs_idr)) as (ci & Hci).
  { apply nonempty_length. now rewrite price_idr_length. }
  destruct (@iloc_last_nonempty _ (t (load_gold raw))) as (xl & Hxl).
  { apply nonempty_length. now rewrite t_length. }
  destruct (@iloc_last_nonempty _ (map ds (load_gold raw))) as (dl & Hdl).
  { apply nonempty_length. now rewrite length_map. }
  set (f := fit (t (load_gold raw)) (price_idr (load_gold raw) kurs_idr)).
  destruct (iloc_last_nonempty
              (future_y_nonempty (fit_beta_0 f) (fit_beta_1 f) xl Hh))
    as (fp & Hfp).
  eexists. split.
  - unfold script. rewrite Hcu. simpl. rewrite Hci. simpl.
    fold f.
    rewrite (@forecast_ok _ _ _ _ pred_days _ _ Hxl Hdl (Z.le_trans _ _ _ Z.le_0_1 Hh)).
    simpl.
    rewrite (@summarize_ok _ _ _ Hfp). simpl. reflexivity.
  - simpl. repeat split; try reflexivity; assumption.
Qed.

(* ================================================================= *)
(** ** The Forecaster *)

(** C5.  For a horizon of at least one day the forecast table has exactly
    [pred_days] rows; row [k] (for [k] in [1 .. pred_days]) is dated [k]
    days after the last historical date and carries
    [beta_0 + beta_1 * (x[-1] + k)]; a horizon of one day gives the single
    row dated the next day. *)
Theorem forecast_rows (df : list Row) (x : list Z) (b0 b1 : float64)
  (pred_days x_last : Z) (ds_last : Timestamp)
  (Hx : iloc_last x = Ok x_last)
  (Hd : iloc_last (map ds df) = Ok ds_last)
  (Hh : (1 <= pred_days)%Z) :
  exists fc,
    forecast df x b0 b1 pred_days = Ok fc /\
    length (fc_future_df fc) = Z.to_nat pred_days /\
    (forall k, (1 <= k <= pred_days)%Z ->
       nth_error (fc_future_df fc) (Z.to_nat (k - 1))
       = Some ((ds_last + timedelta k)%Z,
               fadd b0 (fmul b1 (of_int (x_last + k))))) /\
    (pred_days = 1%Z ->
       fc_future_df fc
       = [ ((ds_last + timedelta 1)%Z, fadd b0 (fmul b1 (of_int (x_last + 1)))) ]).
Proof.
  eexists.
  split; [apply (@forecast_ok _ _ _ _ pred_days _ _ Hx Hd
                   (Z.le_trans _ _ _ Z.le_0_1 Hh)) |].
  simpl. rewrite future_df_rows. split; [| split].
  - now rewrite length_map, length_seq.
  - intros k Hk. rewrite nth_error_map_seq by lia.
    rewrite Z2Nat.id by lia. f_equal. f_equal.
    + unfold timedelta. lia.
    + do 3 f_equal. lia.
  - intros ->. simpl. f_equal. f_equal.
    + unfold timedelta. lia.
    + do 3 f_equal. lia.
Qed.

Lemma forecast_rows_witness :
  exists fc,
    forecast [mkRow (day 0) (Fin 100); mkRow (day 1) (Fin 110)] [0; 1]%Z
             (Fin 100) (Fin 10) 2 = Ok fc /\
    length (fc_future_df fc) = 2%nat.
Proof.
  destruct (@forecast_rows [mkRow (day 0) (Fin 100); mkRow (day 1) (Fin 110)]
              [0; 1]%Z (Fin 100) (Fin 10) 2 1 (day 1)
              eq_refl eq_refl ltac:(lia)) as (fc & H1 & H2 & _).
  exists fc. split; [exact H1 | exact H2].
Defined.



(* ================================================================= *)
(** ** Degenerate series *)

Lemma Rsum_const (A : Type) (c : R) (l : list A) :
  Rsum (map (fun _ => c) l) = INR (length l) * c.
Proof.
  induction l as [| a l IH]; [simpl; lra |].
  change (length (a :: l)) with (S (length l)). rewrite S_INR.
  unfold Rsum in *. simpl. rewrite IH. ring.
Qed.

Lemma Rsum_zero (A : Type) (f : A -> R) (l : list A) :
  (forall a, In a l -> f a = 0) -> Rsum (map f l) = 0.
Proof.
  intros H. rewrite (Rsum_map_ext f (fun _ => 0) l H), Rsum_const. ring.
Qed.

(** When every time index is the same, it is the mean. *)
Lemma same_index_is_mean (pts : list (Z * R)) :
  (forall p q, In p pts -> In q pts -> fst p = fst q) ->
  forall p, In p pts -> IZR (fst p) - Rmean (xs pts) = 0.
Proof.
  intros Hall p Hp.
  assert (Hne : pts <> []) by (intros ->; destruct Hp).
  pose proof (Rsum_dx_zero Hne) as Hz.
  rewrite (Rsum_map_ext _ (fun _ => IZR (fst p) - Rmean (xs pts))) in Hz.
  - rewrite Rsum_const in Hz. pose proof (INR_length_pos Hne). nra.
  - intros q Hq. now rewrite (Hall q p Hq Hp).
Qed.

Lemma beta_1_degenerate (pts : list (Z * R)) :
  pts <> [] ->
  (forall p q, In p pts -> In q pts -> fst p = fst q) ->
  beta_1 (x_of pts) (y_of pts) = NaN.
Proof.
  intros Hne Hall. rewrite (beta_1_fdiv Hne).
  pose proof (same_index_is_mean pts Hall) as Hm.
  apply fdiv_zero_zero; apply Rsum_zero; intros p Hp; rewrite (Hm p Hp); ring.
Qed.

Lemma beta_0_degenerate (pts : list (Z * R)) :
  pts <> [] ->
  (forall p q, In p pts -> In q pts -> fst p = fst q) ->
  beta_0 (x_of pts) (y_of pts) = NaN.
Proof.
  intros Hne Hall. unfold beta_0.
  rewrite (beta_1_degenerate Hne Hall), (y_mean_fin Hne), (x_mean_fin Hne).
  reflexivity.
Qed.

Lemma noise_std_nan_fit (pts : list (Z * R)) :
  noise_std (residual (y_of pts) (trend NaN NaN (x_of pts))) = NaN.
Proof.
  unfold residual, trend, x_of, y_of. rewrite map_map, zip_with_map.
  unfold noise_std, pd_std.
  replace (filter (fun v => negb (isnan v))
             (map (fun a : Z * R =>
                     fsub (Fin (snd a)) (fadd NaN (fmul NaN (of_int (fst a))))) pts))
    with (@nil float64); [reflexivity |].
  induction pts as [| p pts IH]; [reflexivity | exact IH].
Qed.

(** C3.  A series whose time indices are all identical makes the slope
    denominator (and numerator) zero; the fit does not fail: it returns the
    slope, the intercept and the noise figure [nan]. *)
Theorem fit_degenerate_is_nan (pts : list (Z * R))
  (Hne : pts <> [])
  (Hall : forall p q, In p pts -> In q pts -> fst p = fst q) :
  Sxx pts = 0 /\
  fit_beta_1 (fit (x_of pts) (y_of pts)) = NaN /\
  fit_beta_0 (fit (x_of pts) (y_of pts)) = NaN /\
  fit_noise_std (fit (x_of pts) (y_of pts)) = NaN.
Proof.
  split; [| split; [| split]].
  - apply Rsum_zero. intros p Hp.
    rewrite (same_index_is_mean pts Hall p Hp). ring.
  - apply (beta_1_degenerate Hne Hall).
  - apply (beta_0_degenerate Hne Hall).
  - unfold fit. simpl.
    rewrite (beta_1_degenerate Hne Hall), (beta_0_degenerate Hne Hall).
    apply noise_std_nan_fit.
Qed.

Lemma fit_degenerate_is_nan_witness :
  fit_beta_1 (fit (x_of [(0%Z, 100); (0%Z, 110)]) (y_of [(0%Z, 100); (0%Z, 110)]))
  = NaN.
Proof.
  apply (@fit_degenerate_is_nan [(0%Z, 100); (0%Z, 110)]).
  - discriminate.
  - intros p q [<- | [<- | []]] [<- | [<- | []]]; reflexivity.
Defined.

(** The points of [same_day_raw] at the rate 16000. *)
Lemma same_day_price_idr :
  price_idr (load_gold same_day_raw) (Fin 16000)
  = y_of [ (0%Z, 2000 * 16000 / (311035 / 10000));
           (0%Z, 2010 * 16000 / (311035 / 10000)) ].
Proof.
  unfold price_idr, GRAMS_PER_OUNCE. simpl.
  rewrite !fdiv_fin by lra. reflexivity.
Qed.

(** C3, as the specification states it, fails on two rows of one day: the
    run completes and the slope is [nan]. *)
Lemma fit_same_day_returns_nan :
  exists page,
    script same_day_raw (Fin 16000) 30 = Ok page /\
    page_t page = [0; 0]%Z /\
    fit_beta_1 (page_fit page) = NaN.
Proof.
  destruct (@script_runs same_day_raw (Fin 16000) 30)
    as (page & Hrun & _ & Ht & _ & Hfit & _).
  - discriminate.
  - lia.
  - exists page. split; [exact Hrun |]. split; [rewrite Ht; reflexivity |].
    rewrite Hfit, same_day_price_idr.
    change (t (load_gold same_day_raw))
      with (x_of [ (0%Z, 2000 * 16000 / (311035 / 10000));
                   (0%Z, 2010 * 16000 / (311035 / 10000)) ]).
    apply beta_1_degenerate.
    + discriminate.
    + intros p q [<- | [<- | []]] [<- | [<- | []]]; reflexivity.
Qed.

(* ================================================================= *)
(** ** The Series Normalizer *)

(** C2.  [load_gold] keeps exactly the rows without a missing value, in
    their order.  There is no minimum size: the run stops, with the
    [IndexError] of [iloc[-1]], exactly when no valid row remains, and goes
    through with one valid row as with two. *)
Theorem load_gold_no_minimum (raw : list RawRow) (kurs_idr : float64)
  (pred_days : Z) (Hh : (1 <= pred_days)%Z) :
  map to_raw (load_gold raw) = filter valid_row raw /\
  (load_gold raw = [] -> script raw kurs_idr pred_days = Raise IndexError) /\
  (load_gold raw <> [] ->
   exists page,
     script raw kurs_idr pred_days = Ok page /\ page_df page = load_gold raw).
Proof.
  split; [apply dropna_filter | split].
  - apply script_empty.
  - intros Hne.
    destruct (@script_runs raw kurs_idr pred_days Hne Hh) as (page & Hrun & Hdf & _).
    exists page. split; assumption.
Qed.

Lemma load_gold_no_minimum_witness :
  exists page,
    script two_point_raw (Fin 16000) 30 = Ok page /\
    page_df page = load_gold two_point_raw.
Proof.
  apply (@load_gold_no_minimum two_point_raw (Fin 16000) 30 ltac:(lia)).
  discriminate.
Defined.

(** C2, as the specification states it, fails on a table with one valid
    row: the run completes. *)
Lemma one_valid_point_runs :
  length (filter valid_row one_point_raw) = 1%nat /\
  load_gold one_point_raw = [mkRow (day 1) (Fin 2000)] /\
  exists page, script one_point_raw (Fin 16000) 30 = Ok page.
Proof.
  split; [reflexivity | split; [reflexivity |]].
  destruct (@script_runs one_point_raw (Fin 16000) 30) as (page & Hrun & _).
  - discriminate.
  - lia.
  - exists page. exact Hrun.
Qed.

(** *** The time axis *)

Lemma t_sorted_head (r0 : Row) (df : list Row) :
  StronglySorted Z.le (map ds (r0 :: df)) ->
  t (r0 :: df) = map (fun r => dt_days (ds r - ds r0)) (r0 :: df).
Proof.
  intros Hs. unfold t, ds_min. cbn [map].
  rewrite fold_min_head; [reflexivity |].
  now inversion Hs.
Qed.

Lemma t_nonneg (df : list Row) : Forall (Z.le 0) (t df).
Proof.
  unfold t. destruct df as [| r0 df]; [constructor |].
  unfold ds_min. cbn [map].
  destruct (fold_min_le (ds r0) (map ds df)) as [H0 Hall].
  set (d0 := fold_right Z.min (ds r0) (map ds df)) in *.
  assert (Hd : forall d, (d0 <= d)%Z -> (0 <= dt_days (d - d0))%Z).
  { intros d Hd. unfold dt_days. apply Z.div_pos; [lia | exact NS_PER_DAY_pos]. }
  constructor; [apply Hd; exact H0 |].
  apply Forall_map. rewrite Forall_map in Hall.
  eapply Forall_impl; [| exact Hall]. intros r. apply Hd.
Qed.

(** C9.  The time axis is the whole-day distance of every date to the
    earliest one, so it is never negative; on a table in date order it
    starts at 0, is non-decreasing, and keeps every gap of the dates. *)
Theorem t_of_sorted (raw : list RawRow)
  (Hne : load_gold raw <> [])
  (Hs : Sorted Z.le (map ds (load_gold raw))) :
  Forall (Z.le 0) (t (load_gold raw)) /\
  length (t (load_gold raw)) = length (load_gold raw) /\
  nth_error (t (load_gold raw)) 0 = Some 0%Z /\
  Sorted Z.le (t (load_gold raw)) /\
  (forall i r0 r,
     nth_error (load_gold raw) 0 = Some r0 ->
     nth_error (load_gold raw) i = Some r ->
     nth_error (t (load_gold raw)) i = Some (dt_days (ds r - ds r0))).
Proof.
  split; [apply t_nonneg | split; [apply t_length |]].
  apply Sorted_StronglySorted in Hs; [| intros a b c; apply Z.le_trans].
  destruct (load_gold raw) as [| r0 df]; [now elim Hne |].
  rewrite (t_sorted_head Hs). split; [| split].
  - simpl. rewrite Z.sub_diag. reflexivity.
  - apply StronglySorted_Sorted.
    rewrite <- (map_map ds (fun d => dt_days (d - ds r0))).
    apply (StronglySorted_map_mono (RA := Z.le)); [| exact Hs].
    intros a b Hab. apply dt_days_mono. lia.
  - intros i r0' r [= <-] Hr.
    rewrite nth_error_map, Hr. reflexivity.
Qed.

Lemma weekend_raw_sorted : Sorted Z.le (map ds (load_gold weekend_raw)).
Proof.
  simpl. repeat constructor. unfold day, timedelta. vm_compute. discriminate.
Qed.

Lemma t_of_sorted_witness :
  nth_error (t (load_gold weekend_raw)) 0 = Some 0%Z /\
  Sorted Z.le (t (load_gold weekend_raw)).
Proof.
  destruct (@t_of_sorted weekend_raw ltac:(discriminate) weekend_raw_sorted)
    as (_ & _ & H0 & Hs & _).
  split; [exact H0 | exact Hs].
Defined.

(** C9, as the specification states it, fails over a weekend: Friday and
    Monday get the indices 0 and 3. *)
Lemma weekend_has_gap :
  t (load_gold weekend_raw) = [0; 3]%Z /\
  ~ gap_free (t (load_gold weekend_raw)).
Proof.
  assert (Ht : t (load_gold weekend_raw) = [0; 3]%Z) by (vm_compute; reflexivity).
  split; [exact Ht |].
  rewrite Ht. intros Hg.
  specialize (Hg 0%nat 0%Z 3%Z eq_refl eq_refl). discriminate.
Qed.

(* ================================================================= *)
(** ** The horizon slider *)

(** C10.  The horizon comes from a slider of range 7 to 180 that starts at
    30, so every value it returns is positive: the projection is never
    empty and [future_y[-1]] never raises; the run goes through whenever
    the table is not empty. *)
Theorem pred_days_positive (pred_days : Z)
  (Hs : slider_returns pred_days_slider pred_days = true) :
  min_value pred_days_slider = 7%Z /\
  max_value pred_days_slider = 180%Z /\
  value pred_days_slider = 30%Z /\
  slider_returns pred_days_slider (value pred_days_slider) = true /\
  (7 <= pred_days <= 180)%Z /\
  (1 <= pred_days)%Z /\
  (forall x_last, length (future_x x_last pred_days) = Z.to_nat pred_days) /\
  (forall current_idr b0 b1 x_last,
     exists s,
       summarize current_idr (future_y b0 b1 (future_x x_last pred_days)) = Ok s) /\
  (forall raw kurs_idr,
     load_gold raw <> [] -> exists page, script raw kurs_idr pred_days = Ok page).
Proof.
  assert (Hr : (7 <= pred_days <= 180)%Z).
  { unfold slider_returns in Hs. simpl in Hs.
    apply andb_true_iff in Hs. destruct Hs as [H1 H2].
    apply Z.leb_le in H1, H2. lia. }
  assert (H1 : (1 <= pred_days)%Z) by lia.
  repeat split; try reflexivity; try lia.
  - intros x_last. apply future_x_length.
  - intros current_idr b0 b1 x_last.
    destruct (iloc_last_nonempty (future_y_nonempty b0 b1 x_last H1)) as (fp & Hfp).
    eexists. apply (@summarize_ok _ _ _ Hfp).
  - intros raw kurs_idr Hne.
    destruct (@script_runs raw kurs_idr pred_days Hne H1) as (page & Hrun & _).
    exists page. exact Hrun.
Qed.

Lemma pred_days_positive_witness :
  slider_returns pred_days_slider 30 = true /\ (1 <= 30)%Z.
Proof.
  split; [reflexivity |].
  apply (@pred_days_positive 30 eq_refl).
Defined.

(* ================================================================= *)
(** ** The Summary Engine *)

Lemma change_pct_fin (future_price current_idr : R) :
  current_idr <> 0 ->
  change_pct (Fin future_price) (Fin current_idr)
  = Fin ((future_price - current_idr) / current_idr * 100).
Proof.
  intros Hc. unfold change_pct. simpl fsub.
  rewrite fdiv_fin by exact Hc. reflexivity.
Qed.

Lemma change_pct_zero_current (future_price : float64) :
  isfinite (change_pct future_price (Fin 0)) = false.
Proof.
  unfold change_pct, fdiv, of_int.
  destruct future_price as [r | | |]; simpl.
  - destruct (Req_dec_T 0 0) as [_ | H]; [| now elim H].
    destruct (Rsgn (r - 0)); simpl; try reflexivity;
      destruct (Rsgn 100); reflexivity.
  - destruct (Rsgn 0); simpl; destruct (Rsgn 100); reflexivity.
  - destruct (Rsgn 0); simpl; destruct (Rsgn 100); reflexivity.
  - reflexivity.
Qed.

Lemma change_pct_rise_from_zero : change_pct (Fin 140) (Fin 0) = PInf.
Proof.
  unfold change_pct, fdiv, of_int. simpl.
  destruct (Req_dec_T 0 0) as [_ | H]; [| now elim H].
  rewrite Rsgn_pos by lra. simpl. rewrite Rsgn_pos by lra. reflexivity.
Qed.

Lemma trend_status_fin (r : R) : trend_status (Fin r) = TrenNaik <-> 0 < r.
Proof.
  unfold trend_status, of_int.
  destruct (fgt (Fin r) (Fin 0)) eqn:E.
  - apply fgt_fin in E. split; [intros _; exact E | reflexivity].
  - split; [discriminate |]. intros Hr.
    apply fgt_fin in Hr. congruence.
Qed.

Lemma trend_status_cases (pct : float64) :
  (trend_status pct = TrenNaik <-> fgt pct (of_int 0) = true) /\
  (trend_status pct = TrenTurunStabil <-> fgt pct (of_int 0) = false).
Proof.
  unfold trend_status. destruct (fgt pct (of_int 0)); split; split;
    intros; try reflexivity; discriminate.
Qed.

Lemma script_inv (raw : list RawRow) (kurs_idr : float64) (pred_days : Z)
  (page : Page) :
  script raw kurs_idr pred_days = Ok page ->
  page_price_idr page = price_idr (load_gold raw) kurs_idr /\
  iloc_last (page_price_idr page) = Ok (sum_current_idr (page_summary page)) /\
  iloc_last (fc_future_y (page_forecast page))
  = Ok (sum_future_price (page_summary page)) /\
  sum_change_pct (page_summary page)
  = change_pct (sum_future_price (page_summary page))
               (sum_current_idr (page_summary page)) /\
  sum_trend_status (page_summary page)
  = trend_status (sum_change_pct (page_summary page)).
Proof.
  unfold script.
  destruct (iloc_last (map price_usd (load_gold raw))) as [cu | e]; [| discriminate].
  simpl.
  destruct (iloc_last (price_idr (load_gold raw) kurs_idr)) as [ci | e] eqn:Eci;
    [| discriminate].
  simpl.
  destruct (forecast _ _ _ _ _) as [fc | e]; [| discriminate].
  simpl. unfold summarize.
  destruct (iloc_last (fc_future_y fc)) as [fp | e] eqn:Efp; [| discriminate].
  simpl. intros [= <-]. simpl. repeat split; assumption.
Qed.

(** C7.  [change_pct] is [(future_price - current_idr) / current_idr * 100]
    with [current_idr] the last historical value and [future_price] the last
    projected value.  A zero [current_idr] raises nothing: the quotient is
    an infinity or [nan], and the only exception of the summary is the
    [IndexError] of an empty projection. *)
Theorem change_pct_formula (future_price current_idr : R)
  (Hc : current_idr <> 0) :
  change_pct (Fin future_price) (Fin current_idr)
  = Fin ((future_price - current_idr) / current_idr * 100) /\
  (forall fp : float64, isfinite (change_pct fp (Fin 0)) = false) /\
  (forall c fy fp,
     iloc_last fy = Ok fp ->
     summarize c fy
     = Ok (mkSummary c fp (change_pct fp c) (trend_status (change_pct fp c)))) /\
  (forall c fy e, summarize c fy = Raise e -> fy = [] /\ e = IndexError) /\
  (forall raw kurs_idr pred_days page,
     script raw kurs_idr pred_days = Ok page ->
     iloc_last (page_price_idr page) = Ok (sum_current_idr (page_summary page)) /\
     iloc_last (fc_future_y (page_forecast page))
     = Ok (sum_future_price (page_summary page)) /\
     sum_change_pct (page_summary page)
     = change_pct (sum_future_price (page_summary page))
                  (sum_current_idr (page_summary page))).
Proof.
  split; [apply (change_pct_fin _ Hc) |].
  split; [apply change_pct_zero_current |].
  split; [intros c fy fp H; apply (@summarize_ok c fp fy H) |].
  split; [intros c fy e H; apply (@summarize_raises c fy e H) |].
  intros raw kurs_idr pred_days page H.
  destruct (script_inv _ _ _ H) as (_ & H1 & H2 & H3 & _).
  repeat split; assumption.
Qed.

Lemma change_pct_formula_witness :
  change_pct (Fin 140) (Fin 120) = Fin ((140 - 120) / 120 * 100).
Proof.
  apply (@change_pct_formula 140 120). lra.
Defined.

(** C7, as the specification states it, fails at a current value of zero:
    the summary is returned, with an infinite change. *)
Lemma summarize_zero_current_returns :
  summarize (Fin 0) [Fin 140]
  = Ok (mkSummary (Fin 0) (Fin 140) PInf TrenNaik).
Proof.
  unfold summarize. simpl. rewrite change_pct_rise_from_zero. reflexivity.
Qed.

(** *** The flat series *)

Lemma flat_pts_two_distinct : two_distinct flat_pts.
Proof.
  exists (0%Z, 100), (1%Z, 100). simpl. repeat split; auto. discriminate.
Qed.

Lemma flat_slope : ols_slope flat_pts = 0.
Proof.
  unfold ols_slope, Sxy, Sxx, Rmean, Rsum, xs, ys, flat_pts. simpl. field.
Qed.

Lemma flat_intercept : ols_intercept flat_pts = 100.
Proof.
  unfold ols_intercept. rewrite flat_slope.
  unfold Rmean, Rsum, xs, ys, flat_pts. simpl. field.
Qed.

Lemma line_slope : ols_slope line_pts = 10.
Proof.
  unfold ols_slope, Sxy, Sxx, Rmean, Rsum, xs, ys, line_pts. simpl. field.
Qed.

Lemma line_intercept : ols_intercept line_pts = 100.
Proof.
  unfold ols_intercept. rewrite line_slope.
  unfold Rmean, Rsum, xs, ys, line_pts. simpl. field.
Qed.

Lemma flat_summary :
  exists s,
    summarize (Fin 100)
      (future_y (fit_beta_0 (fit (x_of flat_pts) (y_of flat_pts)))
                (fit_beta_1 (fit (x_of flat_pts) (y_of flat_pts)))
                (future_x 2 2)) = Ok s /\
    sum_change_pct s = Fin 0 /\
    sum_trend_status s = TrenTurunStabil.
Proof.
  change (fit_beta_0 (fit (x_of flat_pts) (y_of flat_pts)))
    with (beta_0 (x_of flat_pts) (y_of flat_pts)).
  change (fit_beta_1 (fit (x_of flat_pts) (y_of flat_pts)))
    with (beta_1 (x_of flat_pts) (y_of flat_pts)).
  rewrite (beta_0_fin flat_pts_two_distinct), (beta_1_fin flat_pts_two_distinct).
  rewrite flat_slope, flat_intercept.
  eexists. split; [reflexivity |]. simpl.
  assert (Hp : change_pct (Fin (100 + 0 * 4)) (Fin 100) = Fin 0).
  { rewrite change_pct_fin by lra. apply Fin_eq. field. }
  rewrite Hp. split; [reflexivity |].
  destruct (trend_status (Fin 0)) eqn:E; [| reflexivity].
  apply trend_status_fin in E. lra.
Qed.

(** C8.  The status of a returned summary is "Tren Naik" exactly when
    [change_pct > 0] and "Tren Turun / Stabil" otherwise; a change of
    exactly zero, as on the flat series, is "Tren Turun / Stabil". *)
Theorem trend_status_threshold (current_idr : float64) (fy : list float64)
  (s : Summary) (Hs : summarize current_idr fy = Ok s) :
  (sum_trend_status s = TrenNaik <-> fgt (sum_change_pct s) (of_int 0) = true) /\
  (sum_trend_status s = TrenTurunStabil
   <-> fgt (sum_change_pct s) (of_int 0) = false) /\
  (forall r : R, trend_status (Fin r) = TrenNaik <-> 0 < r) /\
  trend_status (Fin 0) = TrenTurunStabil /\
  fit_beta_1 (fit (x_of flat_pts) (y_of flat_pts)) = Fin 0 /\
  fit_beta_0 (fit (x_of flat_pts) (y_of flat_pts)) = Fin 100 /\
  exists s0,
    summarize (Fin 100)
      (future_y (fit_beta_0 (fit (x_of flat_pts) (y_of flat_pts)))
                (fit_beta_1 (fit (x_of flat_pts) (y_of flat_pts)))
                (future_x 2 2)) = Ok s0 /\
    sum_change_pct s0 = Fin 0 /\
    sum_trend_status s0 = TrenTurunStabil.
Proof.
  assert (Hst : sum_trend_status s = trend_status (sum_change_pct s)).
  { unfold summarize in Hs. destruct (iloc_last fy); [| discriminate].
    simpl in Hs. injection Hs as <-. reflexivity. }
  rewrite Hst.
  split; [apply trend_status_cases |].
  split; [apply trend_status_cases |].
  split; [apply trend_status_fin |].
  split.
  { destruct (trend_status (Fin 0)) eqn:E; [| reflexivity].
    apply trend_status_fin in E. lra. }
  split.
  { change (beta_1 (x_of flat_pts) (y_of flat_pts) = Fin 0).
    now rewrite (beta_1_fin flat_pts_two_distinct), flat_slope. }
  split.
  { change (beta_0 (x_of flat_pts) (y_of flat_pts) = Fin 100).
    now rewrite (beta_0_fin flat_pts_two_distinct), flat_intercept. }
  exact flat_summary.
Qed.

Lemma trend_status_threshold_witness :
  let pct := change_pct (Fin 140) (Fin 120) in
  let s := mkSummary (Fin 120) (Fin 140) pct (trend_status pct) in
  summarize (Fin 120) [Fin 130; Fin 140] = Ok s /\
  (sum_trend_status s = TrenNaik <-> fgt (sum_change_pct s) (of_int 0) = true).
Proof.
  intros pct s. split; [reflexivity |].
  apply (@trend_status_threshold (Fin 120) [Fin 130; Fin 140] s eq_refl).
Defined.

(* ================================================================= *)
(** ** More on the table and the sidebar *)

Lemma dropna_no_nan (raw : list RawRow) :
  Forall (fun r => isnan (price_usd r) = false) (dropna raw).
Proof.
  induction raw as [| r raw IH]; simpl; [constructor |].
  destruct (raw_ds r); [| exact IH].
  destruct (isnan (raw_close r)) eqn:E; [exact IH |].
  constructor; [exact E | exact IH].
Qed.

Lemma dropna_length (raw : list RawRow) :
  (length (dropna raw) <= length raw)%nat.
Proof.
  induction raw as [| r raw IH]; simpl; [lia |].
  destruct (raw_ds r); [| lia].
  destruct (isnan (raw_close r)); simpl; lia.
Qed.

Lemma dropna_to_raw (df : list Row) :
  Forall (fun r => isnan (price_usd r) = false) df ->
  dropna (map to_raw df) = df.
Proof.
  induction 1 as [| r df Hr _ IH]; [reflexivity |].
  simpl. rewrite Hr, IH. now destruct r.
Qed.

Lemma filter_all (A : Type) (f : A -> bool) (l : list A) :
  forallb f l = true -> filter f l = l.
Proof.
  induction l as [| a l IH]; simpl; [reflexivity |].
  intros H. apply andb_true_iff in H. destruct H as [Ha Hl].
  now rewrite Ha, IH.
Qed.

(** The table that [load_gold] returns has no missing price and no more
    rows than the download; cleaning it again changes nothing, and a
    download without missing values comes back whole. *)
Theorem load_gold_clean (raw : list RawRow) :
  Forall (fun r => isnan (price_usd r) = false) (load_gold raw) /\
  (length (load_gold raw) <= length raw)%nat /\
  load_gold (map to_raw (load_gold raw)) = load_gold raw /\
  (forallb valid_row raw = true -> map to_raw (load_gold raw) = raw).
Proof.
  unfold load_gold. split; [apply dropna_no_nan |].
  split; [apply dropna_length |].
  split; [apply dropna_to_raw, dropna_no_nan |].
  intros H. rewrite dropna_filter. now apply filter_all.
Qed.

(** Whatever label the select box returns, the history starts 180, 365,
    730 or 1095 days before the clock reading, hence strictly before it
    and never more than three years back. *)
Theorem start_date_window (hist_period : string) (today : datetime) :
  (today - py_timedelta 1095 <= start_date hist_period today
   <= today - py_timedelta 180)%Z /\
  (start_date hist_period today < today)%Z /\
  exists d, In d [180; 365; 730; 1095]%Z /\
            start_date hist_period today = (today - py_timedelta d)%Z.
Proof.
  unfold start_date, py_timedelta, US_PER_DAY.
  destruct (String.eqb hist_period "6 Bulan");
    [| destruct (String.eqb hist_period "1 Tahun");
       [| destruct (String.eqb hist_period "2 Tahun")]].
  - split; [lia | split; [lia |]]. exists 180%Z. simpl. auto.
  - split; [lia | split; [lia |]]. exists 365%Z. simpl. auto.
  - split; [lia | split; [lia |]]. exists 730%Z. simpl. auto 6.
  - split; [lia | split; [lia |]]. exists 1095%Z. simpl. auto 6.
Qed.

(** The start date moves with the clock: two runs at different instants
    less than 185 days apart never ask for the same start date, whatever
    the two periods are, so the argument of [load_gold] is new on every
    run. *)
Theorem start_date_never_repeats (p1 p2 : string) (today1 today2 : datetime)
  (Hlt : (today1 < today2)%Z)
  (Hnear : (today2 - today1 < py_timedelta 185)%Z) :
  start_date p1 today1 <> start_date p2 today2.
Proof.
  unfold start_date, py_timedelta, US_PER_DAY in *.
  destruct (String.eqb p1 "6 Bulan"), (String.eqb p1 "1 Tahun"),
    (String.eqb p1 "2 Tahun"), (String.eqb p2 "6 Bulan"),
    (String.eqb p2 "1 Tahun"), (String.eqb p2 "2 Tahun"); lia.
Qed.

Lemma start_date_never_repeats_witness :
  start_date "6 Bulan" 0%Z <> start_date "1 Tahun" 1%Z.
Proof.
  apply start_date_never_repeats; unfold py_timedelta, US_PER_DAY; lia.
Defined.

Lemma price_idr_nth (df : list Row) (k : R) (i : nat) (r : Row) (p : R) :
  nth_error df i = Some r ->
  price_usd r = Fin p ->
  nth_error (price_idr df (Fin k)) i = Some (Fin (p * k / (311035 / 10000))).
Proof.
  intros Hi Hp. unfold price_idr. rewrite nth_error_map, Hi. simpl.
  rewrite Hp. simpl fmul. unfold GRAMS_PER_OUNCE.
  rewrite fdiv_fin by lra. reflexivity.
Qed.

(** In manual mode the rate is the number typed, between 10000 and 20000;
    every finite price is then converted to [price * rate / 31.1035], a
    positive price to a positive one within the bounds of the two extreme
    rates. *)
Theorem manual_kurs_conversion (kurs_mode : string) (api_rate : float64)
  (manual : Z)
  (Hmode : String.eqb kurs_mode "API (Real-time)" = false)
  (Hin : number_input_returns kurs_input manual = true) :
  kurs_idr_of kurs_mode api_rate manual = Fin (IZR manual) /\
  10000 <= IZR manual <= 20000 /\
  forall df i r p,
    nth_error df i = Some r ->
    price_usd r = Fin p ->
    nth_error (price_idr df (kurs_idr_of kurs_mode api_rate manual)) i
    = Some (Fin (p * IZR manual / (311035 / 10000))) /\
    (0 < p ->
     0 < p * 10000 / (311035 / 10000) /\
     p * 10000 / (311035 / 10000)
       <= p * IZR manual / (311035 / 10000)
       <= p * 20000 / (311035 / 10000)).
Proof.
  assert (Hk : kurs_idr_of kurs_mode api_rate manual = Fin (IZR manual)).
  { unfold kurs_idr_of. now rewrite Hmode. }
  assert (Hr : 10000 <= IZR manual <= 20000).
  { unfold number_input_returns in Hin. simpl in Hin.
    apply andb_true_iff in Hin. destruct Hin as [H1 H2].
    apply Z.leb_le in H1, H2. split; apply IZR_le; assumption. }
  split; [exact Hk | split; [exact Hr |]].
  intros df i r p Hi Hp. rewrite Hk.
  split; [apply (@price_idr_nth df (IZR manual) i r p Hi Hp) |].
  intros Hpos.
  assert (Hc : 0 < / (311035 / 10000)) by (apply Rinv_0_lt_compat; lra).
  unfold Rdiv at 1 3 5 7. repeat split.
  - apply Rmult_lt_0_compat; [nra | exact Hc].
  - apply Rmult_le_compat_r; [lra | nra].
  - apply Rmult_le_compat_r; [lra | nra].
Qed.

Lemma manual_kurs_conversion_witness :
  kurs_idr_of "Manual" NaN 16000 = Fin 16000.
Proof.
  apply (@manual_kurs_conversion "Manual" NaN 16000 eq_refl eq_refl).
Defined.

(* ================================================================= *)
(** ** More on the time axis and the projection *)

Lemma fold_min_shift (c d : Z) (l : list Z) :
  fold_right Z.min (d + c)%Z (map (fun a => (a + c)%Z) l)
  = (fold_right Z.min d l + c)%Z.
Proof.
  induction l as [| a l IH]; simpl; [reflexivity |].
  rewrite IH. lia.
Qed.

Lemma price_idr_shift (c : Z) (df : list Row) (kurs_idr : float64) :
  price_idr (shift_df c df) kurs_idr = price_idr df kurs_idr.
Proof.
  unfold price_idr, shift_df. rewrite map_map. reflexivity.
Qed.

Lemma t_shift (c : Z) (df : list Row) : t (shift_df c df) = t df.
Proof.
  unfold t, shift_df. destruct df as [| r0 df]; [reflexivity |].
  unfold ds_min. cbn [map ds].
  rewrite map_map. cbn [ds].
  rewrite <- (map_map ds (fun a => (a + c)%Z)), fold_min_shift.
  f_equal; [f_equal; lia |].
  rewrite map_map. apply map_ext. intros r. cbn [ds]. f_equal. lia.
Qed.

(** The time axis only sees distances between dates: moving every date of
    the table by the same amount leaves the axis, the converted prices and
    therefore the whole fit unchanged. *)
Theorem fit_ignores_date_shift (c : Z) (df : list Row) (kurs_idr : float64) :
  t (shift_df c df) = t df /\
  fit (t (shift_df c df)) (price_idr (shift_df c df) kurs_idr)
  = fit (t df) (price_idr df kurs_idr).
Proof.
  split; [apply t_shift |].
  now rewrite t_shift, price_idr_shift.
Qed.

Lemma iloc_last_map (A B : Type) (f : A -> B) (l : list A) (a : A) :
  iloc_last l = Ok a -> iloc_last (map f l) = Ok (f a).
Proof.
  intros H. destruct l as [| b l]; [discriminate |].
  assert (Hne : b :: l <> []) by discriminate.
  destruct (exists_last Hne) as (l' & a' & E). rewrite E in *.
  rewrite iloc_last_snoc in H. injection H as ->.
  rewrite map_app. simpl. apply iloc_last_snoc.
Qed.

Lemma t_last (df : list Row) (d0 ds_last : Timestamp) :
  ds_min (map ds df) = Some d0 ->
  iloc_last (map ds df) = Ok ds_last ->
  iloc_last (t df) = Ok (dt_days (ds_last - d0)).
Proof.
  intros H0 Hl. unfold t. rewrite H0.
  rewrite <- (map_map ds (fun d => dt_days (d - d0))).
  exact (@iloc_last_map _ _ (fun d => dt_days (d - d0)) (map ds df) ds_last Hl).
Qed.

Lemma dt_days_add (a k : Z) :
  dt_days (a + timedelta k) = (dt_days a + k)%Z.
Proof.
  unfold dt_days, timedelta. apply Z.div_add.
  pose proof NS_PER_DAY_pos. lia.
Qed.

Lemma future_x_gap_free (x_last pred_days : Z) :
  gap_free (future_x x_last pred_days).
Proof.
  intros i a b Ha Hb.
  assert (Hi : (S i < length (future_x x_last pred_days))%nat).
  { apply nth_error_Some. rewrite Hb. discriminate. }
  rewrite future_x_length in Hi.
  unfold future_x, np_arange in Ha, Hb.
  rewrite nth_error_map_seq in Ha by lia.
  rewrite nth_error_map_seq in Hb by lia.
  injection Ha as <-. injection Hb as <-. lia.
Qed.

(** The projected time indices continue the historical axis: they are
    consecutive integers, and entry [k] is exactly the whole-day distance
    of the [k]-th future date to the first date of the table, the same
    rule that gave the historical indices. *)
Theorem future_axis_matches_dates (df : list Row) (d0 ds_last : Timestamp)
  (pred_days : Z)
  (H0 : ds_min (map ds df) = Some d0)
  (Hl : iloc_last (map ds df) = Ok ds_last) :
  iloc_last (t df) = Ok (dt_days (ds_last - d0)) /\
  gap_free (future_x (dt_days (ds_last - d0)) pred_days) /\
  forall k d fd,
    future_dates ds_last pred_days = Ok fd ->
    nth_error fd k = Some d ->
    nth_error (future_x (dt_days (ds_last - d0)) pred_days) k
    = Some (dt_days (d - d0)).
Proof.
  split; [apply (@t_last df d0 ds_last H0 Hl) |].
  split; [apply future_x_gap_free |].
  intros k d fd Hfd Hk.
  assert (Hlt : (k < length fd)%nat).
  { apply nth_error_Some. rewrite Hk. discriminate. }
  unfold future_dates, date_range in Hfd.
  destruct (Z.ltb_spec pred_days 0); [discriminate |].
  injection Hfd as <-. rewrite daily_index_length in Hlt.
  unfold daily_index in Hk.
  rewrite nth_error_map_seq in Hk by exact Hlt. injection Hk as <-.
  unfold future_x, np_arange.
  rewrite nth_error_map_seq by lia. f_equal.
  replace (dt_days (ds_last - d0) + 1 + Z.of_nat k)%Z
    with (dt_days (ds_last - d0) + (1 + Z.of_nat k))%Z by lia.
  rewrite <- dt_days_add.
  f_equal. unfold timedelta, NS_PER_DAY. lia.
Qed.

Lemma future_axis_matches_dates_witness :
  iloc_last (t [mkRow (day 0) (Fin 100); mkRow (day 3) (Fin 110)])
  = Ok (dt_days (day 3 - day 0)).
Proof.
  apply (@future_axis_matches_dates
           [mkRow (day 0) (Fin 100); mkRow (day 3) (Fin 110)]
           (day 0) (day 3) 2 eq_refl eq_refl).
Defined.

Lemma iloc_last_future_y (b0 b1 : float64) (x_last pred_days : Z) :
  (1 <= pred_days)%Z ->
  iloc_last (future_y b0 b1 (future_x x_last pred_days))
  = Ok (fadd b0 (fmul b1 (of_int (x_last + pred_days)))).
Proof.
  intros Hh. unfold future_y, future_x, np_arange.
  replace (Z.to_nat (x_last + pred_days + 1 - (x_last + 1)))
    with (S (Z.to_nat (pred_days - 1))) by lia.
  rewrite seq_S, !map_app. simpl. rewrite iloc_last_snoc.
  do 4 f_equal. lia.
Qed.

Lemma script_inv_full (raw : list RawRow) (kurs_idr : float64)
  (pred_days : Z) (page : Page) :
  script raw kurs_idr pred_days = Ok page ->
  exists cu ci xl dl fp,
    iloc_last (map price_usd (load_gold raw)) = Ok cu /\
    iloc_last (price_idr (load_gold raw) kurs_idr) = Ok ci /\
    iloc_last (t (load_gold raw)) = Ok xl /\
    iloc_last (map ds (load_gold raw)) = Ok dl /\
    iloc_last (future_y (beta_0 (t (load_gold raw))
                                (price_idr (load_gold raw) kurs_idr))
                        (beta_1 (t (load_gold raw))
                                (price_idr (load_gold raw) kurs_idr))
                        (future_x xl pred_days)) = Ok fp /\
    page_df page = load_gold raw /\
    page_t page = t (load_gold raw) /\
    page_current_usd page = cu /\
    page_fit page
    = fit (t (load_gold raw)) (price_idr (load_gold raw) kurs_idr) /\
    page_summary page
    = mkSummary ci fp (change_pct fp ci) (trend_status (change_pct fp ci)).
Proof.
  unfold script.
  destruct (iloc_last (map price_usd (load_gold raw))) as [cu | e]; [| discriminate].
  simpl.
  destruct (iloc_last (price_idr (load_gold raw) kurs_idr)) as [ci | e];
    [| discriminate].
  simpl. unfold forecast.
  destruct (iloc_last (t (load_gold raw))) as [xl | e]; [| discriminate].
  simpl.
  destruct (iloc_last (map ds (load_gold raw))) as [dl | e]; [| discriminate].
  simpl.
  destruct (future_dates dl pred_days) as [fd | e]; [| discriminate].
  simpl. unfold summarize.
  destruct (iloc_last (future_y _ _ (future_x xl pred_days))) as [fp | e] eqn:Efp;
    [| discriminate].
  simpl. intros [= <-].
  exists cu, ci, xl, dl, fp. simpl. repeat split; try reflexivity. exact Efp.
Qed.

(** A run that completes had a horizon of at least one day, and the
    forecast figure of its summary is the trend line evaluated
    [pred_days] steps after the last time index. *)
Theorem future_price_on_trend_line (raw : list RawRow) (kurs_idr : float64)
  (pred_days : Z) (page : Page)
  (Hrun : script raw kurs_idr pred_days = Ok page) :
  (1 <= pred_days)%Z /\
  exists x_last,
    iloc_last (page_t page) = Ok x_last /\
    sum_future_price (page_summary page)
    = fadd (fit_beta_0 (page_fit page))
           (fmul (fit_beta_1 (page_fit page)) (of_int (x_last + pred_days))).
Proof.
  destruct (@script_inv_full _ _ _ _ Hrun)
    as (cu & ci & xl & dl & fp & _ & _ & Hxl & _ & Hfp & _ & Ht & _ & Hfit & Hsum).
  assert (Hh : (1 <= pred_days)%Z).
  { destruct (Z_le_gt_dec 1 pred_days) as [H | H]; [exact H |].
    exfalso. unfold future_x in Hfp. rewrite np_arange_empty in Hfp by lia.
    discriminate. }
  split; [exact Hh |].
  exists xl. rewrite Ht, Hsum, Hfit. split; [exact Hxl |].
  rewrite (@iloc_last_future_y _ _ xl pred_days Hh) in Hfp. injection Hfp as <-.
  reflexivity.
Qed.

Lemma future_price_on_trend_line_witness :
  exists page, script two_point_raw (Fin 16000) 30 = Ok page /\ (1 <= 30)%Z.
Proof.
  destruct (@script_runs two_point_raw (Fin 16000) 30
              ltac:(discriminate) ltac:(lia)) as (page & Hrun & _).
  exists page. split; [exact Hrun |].
  apply (@future_price_on_trend_line two_point_raw (Fin 16000) 30 page Hrun).
Defined.

(** The two headline figures describe the same row: the IDR figure is the
    USD figure of the last row times the rate, divided by 31.1035. *)
Theorem current_idr_is_converted_usd (raw : list RawRow) (kurs_idr : float64)
  (pred_days : Z) (page : Page)
  (Hrun : script raw kurs_idr pred_days = Ok page) :
  iloc_last (map price_usd (page_df page)) = Ok (page_current_usd page) /\
  sum_current_idr (page_summary page)
  = fdiv (fmul (page_current_usd page) kurs_idr) GRAMS_PER_OUNCE.
Proof.
  destruct (@script_inv_full _ _ _ _ Hrun)
    as (cu & ci & xl & dl & fp & Hcu & Hci & _ & _ & _ & Hdf & _ & Hpcu & _ & Hsum).
  rewrite Hdf, Hpcu, Hsum. split; [exact Hcu |]. simpl.
  assert (Hl : exists r, iloc_last (load_gold raw) = Ok r).
  { apply iloc_last_nonempty. intros E. rewrite E in Hcu. discriminate. }
  destruct Hl as (r & Hr).
  rewrite (@iloc_last_map _ _ price_usd _ _ Hr) in Hcu. injection Hcu as <-.
  unfold price_idr in Hci.
  rewrite (@iloc_last_map _ _ _ _ _ Hr) in Hci. now injection Hci as <-.
Qed.

Lemma current_idr_is_converted_usd_witness :
  exists page,
    script two_point_raw (Fin 16000) 30 = Ok page /\
    sum_current_idr (page_summary page)
    = fdiv (fmul (page_current_usd page) (Fin 16000)) GRAMS_PER_OUNCE.
Proof.
  destruct (@script_runs two_point_raw (Fin 16000) 30
              ltac:(discriminate) ltac:(lia)) as (page & Hrun & _).
  exists page. split; [exact Hrun |].
  apply (@current_idr_is_converted_usd two_point_raw (Fin 16000) 30 page Hrun).
Defined.

(* ================================================================= *)
(** ** Tables as real-valued series *)

Lemma x_of_pts_of (x : list Z) (y : list float64) :
  length x = length y -> x_of (pts_of x y) = x.
Proof.
  unfold x_of, pts_of. revert y.
  induction x as [| a x IH]; intros [| b y] H; simpl in *; try reflexivity;
    try discriminate.
  f_equal. apply IH. lia.
Qed.

(** *** The status against the last price *)

(** With a positive last price the status is "Tren Naik" exactly when
    the projected price is above the last price; with a negative last
    price the comparison is reversed.  The slope alone does not decide. *)
Theorem trend_status_compares_prices (future_price current_idr : R)
  (Hc : current_idr <> 0) :
  (0 < current_idr ->
   (trend_status (change_pct (Fin future_price) (Fin current_idr)) = TrenNaik
    <-> current_idr < future_price)) /\
  (current_idr < 0 ->
   (trend_status (change_pct (Fin future_price) (Fin current_idr)) = TrenNaik
    <-> future_price < current_idr)).
Proof.
  rewrite (change_pct_fin future_price Hc).
  split; intros Hs; rewrite trend_status_fin; unfold Rdiv.
  - pose proof (Rinv_0_lt_compat _ Hs) as Hi. split; intros H; nra.
  - pose proof (Rinv_lt_0_compat _ Hs) as Hi. split; intros H; nra.
Qed.

Lemma trend_status_compares_prices_witness :
  trend_status (change_pct (Fin 140) (Fin 120)) = TrenNaik <-> 120 < 140.
Proof.
  destruct (@trend_status_compares_prices 140 120 ltac:(lra)) as [Hpos _].
  apply Hpos. lra.
Defined.

(* ================================================================= *)
(** ** The converted prices *)

Lemma x_of_scale (s : R) (pts : list (Z * R)) :
  x_of (scale_pts s pts) = x_of pts.
Proof. unfold x_of, scale_pts. now rewrite map_map. Qed.

(** The converted prices are the USD series scaled by [rate / 31.1035]. *)
Lemma price_idr_scaled (k : R) (x : list Z) (df : list Row) :
  length x = length df ->
  all_finite (map price_usd df) = true ->
  price_idr df (Fin k)
  = y_of (scale_pts (k / (311035 / 10000)) (pts_of x (map price_usd df))).
Proof.
  unfold price_idr, y_of, scale_pts, pts_of, all_finite. revert x.
  induction df as [| r df IH]; intros [| a x] Hl Hf; simpl in *;
    try reflexivity; try discriminate.
  apply andb_true_iff in Hf. destruct Hf as [Hr Hf].
  rewrite <- (IH x) by (try lia; exact Hf).
  f_equal. destruct (price_usd r) as [p | | |]; try discriminate. simpl.
  unfold GRAMS_PER_OUNCE. rewrite fdiv_fin by lra.
  apply Fin_eq. field.
Qed.

(* ================================================================= *)
(** ** Runs that fail and runs on a degenerate table *)

(** With a horizon that is not negative the only exception of a run is
    the [IndexError] of a last-element lookup, and it occurs exactly when
    the cleaned table is empty or the horizon is zero. *)
Theorem script_fails_iff (raw : list RawRow) (kurs_idr : float64)
  (pred_days : Z) (Hh : (0 <= pred_days)%Z) :
  (forall e, script raw kurs_idr pred_days = Raise e -> e = IndexError) /\
  (script raw kurs_idr pred_days = Raise IndexError
   <-> load_gold raw = [] \/ pred_days = 0%Z).
Proof.
  assert (Hcases : load_gold raw = [] \/ load_gold raw <> []).
  { destruct (load_gold raw); [now left | right; discriminate]. }
  assert (Hzero : load_gold raw <> [] -> pred_days = 0%Z ->
                  script raw kurs_idr pred_days = Raise IndexError).
  { intros Hne ->.
    destruct (@iloc_last_nonempty _ (map price_usd (load_gold raw))) as (cu & Hcu).
    { destruct (load_gold raw); [now elim Hne | discriminate]. }
    destruct (@iloc_last_nonempty _ (price_idr (load_gold raw) kurs_idr))
      as (ci & Hci).
    { apply nonempty_length. rewrite price_idr_length.
      destruct (load_gold raw); [now elim Hne | simpl; lia]. }
    destruct (@iloc_last_nonempty _ (t (load_gold raw))) as (xl & Hxl).
    { apply nonempty_length. rewrite t_length.
      destruct (load_gold raw); [now elim Hne | simpl; lia]. }
    destruct (@iloc_last_nonempty _ (map ds (load_gold raw))) as (dl & Hdl).
    { destruct (load_gold raw); [now elim Hne | discriminate]. }
    unfold script. rewrite Hcu. simpl. rewrite Hci. simpl.
    rewrite (@forecast_ok _ _ _ _ 0%Z _ _ Hxl Hdl (Z.le_refl 0)). simpl.
    assert (H0 : future_x xl 0 = []).
    { unfold future_x. apply np_arange_empty. lia. }
    rewrite H0. reflexivity. }
  split.
  - intros e He. destruct Hcases as [Hnil | Hne].
    + rewrite (@script_empty raw kurs_idr pred_days Hnil) in He. congruence.
    + destruct (Z.eq_dec pred_days 0) as [Hz | Hz].
      * rewrite (Hzero Hne Hz) in He. congruence.
      * destruct (@script_runs raw kurs_idr pred_days Hne ltac:(lia))
          as (page & Hrun & _). congruence.
  - split.
    + intros He. destruct Hcases as [Hnil | Hne]; [now left |].
      destruct (Z.eq_dec pred_days 0) as [Hz | Hz]; [now right |].
      destruct (@script_runs raw kurs_idr pred_days Hne ltac:(lia))
        as (page & Hrun & _). congruence.
    + intros [Hnil | Hz].
      * apply (@script_empty raw kurs_idr pred_days Hnil).
      * destruct Hcases as [Hnil | Hne]; [apply (@script_empty raw kurs_idr pred_days Hnil) |].
        apply (Hzero Hne Hz).
Qed.

Lemma script_fails_iff_witness :
  script two_point_raw (Fin 16000) 0 = Raise IndexError.
Proof.
  apply (@script_fails_iff two_point_raw (Fin 16000) 0 ltac:(lia)).
  now right.
Defined.

Lemma change_pct_nan (current_idr : float64) : change_pct NaN current_idr = NaN.
Proof. reflexivity. Qed.

(** A table of finite prices whose rows all fall on one day (a single
    row, for instance) still yields a page: the fit is [nan], the
    projected price and the percentage change are [nan], and the status
    shown is "Tren Turun / Stabil". *)
Theorem degenerate_run_reports_stable (raw : list RawRow) (k : R)
  (pred_days : Z)
  (Hne : load_gold raw <> [])
  (Hfin : all_finite (map price_usd (load_gold raw)) = true)
  (Hall : forall a b,
      In a (t (load_gold raw)) -> In b (t (load_gold raw)) -> a = b)
  (Hh : (1 <= pred_days)%Z) :
  exists page,
    script raw (Fin k) pred_days = Ok page /\
    fit_beta_1 (page_fit page) = NaN /\
    sum_future_price (page_summary page) = NaN /\
    sum_change_pct (page_summary page) = NaN /\
    sum_trend_status (page_summary page) = TrenTurunStabil.
Proof.
  destruct (@script_runs raw (Fin k) pred_days Hne Hh) as (page & Hrun & _).
  exists page. split; [exact Hrun |].
  set (s := k / (311035 / 10000)).
  set (upts := scale_pts s (pts_of (t (load_gold raw))
                                   (map price_usd (load_gold raw)))).
  assert (Hlen : length (t (load_gold raw))
                 = length (map price_usd (load_gold raw))).
  { now rewrite t_length, length_map. }
  assert (Hx : t (load_gold raw) = x_of upts).
  { unfold upts. now rewrite x_of_scale, x_of_pts_of. }
  assert (Hy : price_idr (load_gold raw) (Fin k) = y_of upts).
  { apply price_idr_scaled; [apply t_length | exact Hfin]. }
  assert (Hune : upts <> []).
  { intros E. apply (f_equal x_of) in E. rewrite <- Hx in E.
    apply (f_equal (@length Z)) in E. rewrite t_length in E.
    destruct (load_gold raw); [now elim Hne | discriminate]. }
  assert (Hsame : forall p q, In p upts -> In q upts -> fst p = fst q).
  { intros p q Hp Hq. apply Hall; rewrite Hx; unfold x_of;
      apply in_map; assumption. }
  destruct (@script_inv_full _ _ _ _ Hrun)
    as (cu & ci & xl & dl & fp & _ & _ & _ & _ & Hfp & _ & _ & _ & Hfit & Hsum).
  rewrite Hy in Hfp, Hfit. rewrite Hx in Hfp, Hfit.
  rewrite (beta_0_degenerate Hune Hsame), (beta_1_degenerate Hune Hsame) in Hfp.
  rewrite (@iloc_last_future_y _ _ xl pred_days Hh) in Hfp.
  simpl in Hfp. injection Hfp as <-.
  rewrite Hfit, Hsum. simpl.
  split; [apply (beta_1_degenerate Hune Hsame) |].
  repeat split; reflexivity.
Qed.

Lemma degenerate_run_reports_stable_witness :
  exists page,
    script one_point_raw (Fin 16000) 30 = Ok page /\
    sum_trend_status (page_summary page) = TrenTurunStabil.
Proof.
  destruct (@degenerate_run_reports_stable one_point_raw 16000 30)
    as (page & Hrun & _ & _ & _ & Hst).
  - discriminate.
  - reflexivity.
  - intros a b Ha Hb. vm_compute in Ha, Hb.
    destruct Ha as [<- | []], Hb as [<- | []]. reflexivity.
  - lia.
  - exists page. auto.
Defined.
